(** * Podcatcher-Web: feed parser, time-bounded cache and audio player

    A shallow embedding of [js/utils.js], [js/api.js] and [js/player.js].

    Conventions of the embedding
    - JavaScript strings are [string]; the falsy string is [""].
    - [Date.now()] and every stored timestamp is an integer number of
      milliseconds, a [Z].
    - Media positions and durations are JavaScript numbers measured in
      seconds; they are rationals here ([Q]), with the not-a-number and
      the unbounded duration of a media element kept apart ([JsNumber]).
    - [localStorage] is a finite map from keys to the stored items.  An
      item is identified with the value its JSON text parses to.
    - What the browser supplies (the XML and HTML parsers, the date parser,
      the URL constructor, base64, the network, the media element's
      buffering level) is a record of functions, [Browser].
    - Scripts run to completion: the clock stands still while a handler
      runs, a promise settles within the call that awaits it, and pending
      [setTimeout] callbacks sit in a queue that the event loop serves by
      due time, then by the order in which they were set. *)

From Stdlib Require Import ZArith QArith Qminmax Qround Lia List Ascii String Bool DecimalString.
From stdpp Require Import base option list gmap strings sorting.

Local Open Scope string_scope.
Local Open Scope Z_scope.

(** ** JavaScript string primitives used by the sources *)
Module JsString.

(** [\d] of a JavaScript regular expression: the ASCII digits only. *)
Definition isDigit (c : ascii) : bool :=
  let n := nat_of_ascii c in (48 <=? n)%nat && (n <=? 57)%nat.

Definition digitValue (c : ascii) : Z := Z.of_nat (nat_of_ascii c) - 48.

(** The white space that [String.prototype.trim] removes, restricted to
    the ASCII range: TAB, LF, VT, FF, CR and SPACE. *)
Definition isSpace (c : ascii) : bool :=
  let n := nat_of_ascii c in
  ((9 <=? n)%nat && (n <=? 13)%nat) || (n =? 32)%nat.

Fixpoint trimStart (s : string) : string :=
  match s with
  | String c r => if isSpace c then trimStart r else s
  | EmptyString => EmptyString
  end.

Fixpoint trimEnd (s : string) : string :=
  match s with
  | EmptyString => EmptyString
  | String c r =>
      match trimEnd r with
      | EmptyString => if isSpace c then EmptyString else String c EmptyString
      | r' => String c r'
      end
  end.

Definition trim (s : string) : string := trimEnd (trimStart s).

(** [s.startsWith(p)] *)
Fixpoint startsWith (p s : string) : bool :=
  match p, s with
  | EmptyString, _ => true
  | String a p', String b s' => Ascii.eqb a b && startsWith p' s'
  | String _ _, EmptyString => false
  end.

(** [s.includes(p)] *)
Fixpoint includes (p s : string) : bool :=
  startsWith p s ||
  match s with
  | EmptyString => false
  | String _ s' => includes p s'
  end.

(** Truthiness of a string: only the empty string is falsy. *)
Definition truthy (s : string) : bool :=
  match s with EmptyString => false | String _ _ => true end.

(** [a || b] on strings. *)
Definition or (a b : string) : string := if truthy a then a else b.

(** Splits off the longest run of digits at the head of [s]: what a
    greedy [\d*] consumes there. *)
Fixpoint spanDigits (s : string) : string * string :=
  match s with
  | String c r =>
      if isDigit c then let '(d, rest) := spanDigits r in (String c d, rest)
      else (EmptyString, s)
  | EmptyString => (EmptyString, EmptyString)
  end.

Fixpoint allDigits (s : string) : bool :=
  match s with
  | EmptyString => true
  | String c r => isDigit c && allDigits r
  end.

Fixpoint digitsValue (acc : Z) (s : string) : Z :=
  match s with
  | EmptyString => acc
  | String c r => digitsValue (10 * acc + digitValue c) r
  end.

(** [parseInt(s, 10)]: leading white space is skipped, an optional sign
    is read, then the longest run of decimal digits; [None] is NaN (no
    digit where one is expected).  Integers are exact here; JavaScript
    rounds above 2^53. *)
Definition parseInt (s : string) : option Z :=
  let s := trimStart s in
  let '(sign, body) :=
    match s with
    | String "-" r => (-1, r)
    | String "+" r => (1, r)
    | _ => (1, s)
    end in
  match fst (spanDigits body) with
  | EmptyString => None
  | d => Some (sign * digitsValue 0 d)
  end.

End JsString.

(** ** A DOM tree, as far as the feed parser looks at it *)
Module Dom.

(** An element carries the name that a type selector is compared with
    (names are case-sensitive in an XML document; a selector written with
    an escaped colon, as in [itunes\:image], is compared as a whole). *)
#[warnings="-register-all"]
Inductive Node : Type :=
| Element (name : string) (attributes : list (string * string))
          (childNodes : list Node)
| TextNode (data : string).

(** The selectors the sources pass to [querySelector]: a type selector,
    optionally with one attribute test ([[a="v"]] or [[a^="v"]]). *)
Inductive AttrTest : Type :=
| AttrEquals (name value : string)
| AttrStartsWith (name value : string).

Record Selector : Type := mkSelector {
  selTag : string;
  selAttr : option AttrTest
}.

Definition tag (t : string) : Selector := mkSelector t None.

(** [element.getAttribute(name)]; [None] is JavaScript's [null]. *)
Fixpoint getAttribute (name : string) (attrs : list (string * string))
  : option string :=
  match attrs with
  | [] => None
  | (k, v) :: r => if String.eqb k name then Some v else getAttribute name r
  end.

Definition attrHolds (t : AttrTest) (attrs : list (string * string)) : bool :=
  match t with
  | AttrEquals n v =>
      match getAttribute n attrs with
      | Some a => String.eqb a v
      | None => false
      end
  | AttrStartsWith n v =>
      match getAttribute n attrs with
      | Some a => JsString.truthy v && JsString.startsWith v a
      | None => false
      end
  end.

Definition matches (sel : Selector) (n : Node) : bool :=
  match n with
  | Element t attrs _ =>
      String.eqb t (selTag sel) &&
      match selAttr sel with
      | Some at_ => attrHolds at_ attrs
      | None => true
      end
  | TextNode _ => false
  end.

(** Descendants of a node in document order (the node itself excluded). *)
Fixpoint descendants (n : Node) : list Node :=
  match n with
  | TextNode _ => []
  | Element _ _ cs =>
      (fix go (l : list Node) : list Node :=
         match l with
         | [] => []
         | c :: r => c :: descendants c ++ go r
         end) cs
  end.

(** [element.querySelectorAll(sel)] and [element.querySelector(sel)]. *)
Definition querySelectorAll (sel : Selector) (n : Node) : list Node :=
  List.filter (matches sel) (descendants n).

Definition querySelector (sel : Selector) (n : Node) : option Node :=
  head (querySelectorAll sel n).

(** A document holds its root element; a query on the document also
    sees the root. *)
Record Document : Type := mkDocument { documentElement : Node }.

Definition docQuerySelectorAll (sel : Selector) (d : Document) : list Node :=
  List.filter (matches sel) (documentElement d :: descendants (documentElement d)).

Definition docQuerySelector (sel : Selector) (d : Document) : option Node :=
  head (docQuerySelectorAll sel d).

(** [node.textContent]: the text of all descendants, concatenated. *)
Fixpoint textContent (n : Node) : string :=
  match n with
  | TextNode s => s
  | Element _ _ cs =>
      (fix go (l : list Node) : string :=
         match l with
         | [] => EmptyString
         | c :: r => textContent c ++ go r
         end) cs
  end.

Definition attributesOf (n : Node) : list (string * string) :=
  match n with
  | Element _ attrs _ => attrs
  | TextNode _ => []
  end.

End Dom.

(** ** Records exchanged between the modules *)

(** An episode as [parseEpisodeItem] builds it. *)
Module Episode.
Record t : Type := mk {
  title : string;
  description : string;
  audioUrl : string;
  pubDate : string;
  duration : option Z;      (* a number of seconds; [None] is NaN *)
  artwork : string;
  guid : string;
  type : option string      (* [getAttribute('type')]; [None] is null *)
}.
End Episode.

(** A podcast as [transformPodcastData] builds it (only cached here). *)
Module Podcast.
Record t : Type := mk {
  id : Z;
  name : string;
  feedUrl : string
}.
End Podcast.

(** A JavaScript number where NaN and Infinity can occur.  A media
    element's [duration] is NaN before the metadata is known, a number of
    seconds, or Infinity for an unbounded stream. *)
Inductive JsNumber : Type :=
| NaN
| Num (q : Q)
| Infinity.

(** What the API functions hand to the cache and to their callers. *)
Inductive CacheValue : Type :=
| VEpisodes (episodes : list Episode.t)
| VPodcasts (podcasts : list Podcast.t)
| VPodcast (podcast : Podcast.t).

(** The items found in [localStorage], by the shape of their JSON text:
    [{value, timestamp}], [{episode, timestamp}],
    [{episodeGuid, position, timestamp}], and text that [JSON.parse]
    rejects. *)
Inductive Stored : Type :=
| SCache (value : CacheValue) (timestamp : Z)
| SCurrentEpisode (episode : option Episode.t) (timestamp : Z)
| SPlaybackPosition (episodeGuid : string) (position : Q) (timestamp : Z)
| SMalformed.

(** Outcome of a call that may throw: the thrown [Error]'s message. *)
Inductive Result (A : Type) : Type :=
| Ok (a : A)
| Err (message : string).
Arguments Ok {A} a.
Arguments Err {A} message.

(** Outcome of [fetch(url)]: a rejection (network failure, blocked
    request) or a response. *)
Inductive FetchResult : Type :=
| FetchRejected (message : string)
| FetchResponse (ok : bool) (status : Z) (body : string).

(** The capabilities of the hosting browser. *)
Record Browser : Type := mkBrowser {
  (* [new DOMParser().parseFromString(text, 'text/xml')]; on text that is
     not well-formed the document carries a [parsererror] element *)
  parseFromString : string -> Dom.Document;
  (* [div.innerHTML = html; div.textContent] *)
  htmlTextContent : string -> string;
  (* [new Date(text).getTime()]; [None] is NaN (an invalid date) *)
  dateParse : string -> option Z;
  (* whether [new URL(text)] succeeds *)
  urlConstructs : string -> bool;
  btoa : string -> string;
  fetch : string -> FetchResult;
  (* [audio.readyState] as a function of the time it is read at *)
  readyStateAt : Z -> nat;
  (* outcome of [audio.play()] requested at a time: [None] when the
     promise resolves, [Some message] when it rejects *)
  playRejection : Z -> option string;
  (* ['mediaSession' in navigator] *)
  hasMediaSession : bool
}.

(** The element behind [this.audio], with the requests made to it. *)
Record Audio : Type := mkAudio {
  src : string;
  paused : bool;
  currentTime : Q;
  duration : JsNumber;
  loadCalls : nat;
  playCalls : nat
}.

(** The fields of the [AudioPlayer] instance. *)
Record Player : Type := mkPlayer {
  currentEpisode : option Episode.t;
  isPlaying : bool;
  playerTime : Q;              (* [this.currentTime] *)
  playerDuration : JsNumber  (* [this.duration] *)
}.

(** The part of the page the player writes to. *)
Record Ui : Type := mkUi {
  controlsDisabled : bool;     (* the four transport controls *)
  spinner : bool;
  playIconHidden : bool;
  pauseIconHidden : bool;
  ariaLabel : string;
  episodeTitle : string;
  episodePodcast : string;
  progressBar : Q;
  playerShown : bool;
  mediaSessionTitle : string;
  mediaSessionArtist : string
}.

(** Callbacks handed to [setTimeout]. *)
Inductive Task : Type :=
| TryPlay                          (* [tryPlay] of [waitForReadyAndPlay] *)
| LoadingTimeout (listener : nat)  (* its ten second timeout *)
| AnnounceText (region : nat) (message : string)
| AnnounceRemove (region : nat).

Record Timer : Type := mkTimer { due : Z; task : Task }.

(** Everything the three scripts read and write. *)
Record World : Type := mkWorld {
  localStorage : gmap string Stored;
  clock : Z;                         (* what [Date.now()] returns *)
  timers : list Timer;               (* in the order they were set *)
  nextId : nat;                      (* fresh names for closures and nodes *)
  canplayListeners : list nat;       (* the [onCanPlay] closures registered *)
  liveRegions : list (nat * string); (* nodes of [announceToScreenReader] *)
  announced : list (Z * string);     (* texts put into a live region, newest first *)
  audio : Audio;
  player : Player;
  ui : Ui
}.

Definition withStorage (f : gmap string Stored -> gmap string Stored) (w : World) : World :=
  mkWorld (f (localStorage w)) (clock w) (timers w) (nextId w) (canplayListeners w)
          (liveRegions w) (announced w) (audio w) (player w) (ui w).

Definition withClock (t : Z) (w : World) : World :=
  mkWorld (localStorage w) t (timers w) (nextId w) (canplayListeners w)
          (liveRegions w) (announced w) (audio w) (player w) (ui w).

Definition withTimers (f : list Timer -> list Timer) (w : World) : World :=
  mkWorld (localStorage w) (clock w) (f (timers w)) (nextId w) (canplayListeners w)
          (liveRegions w) (announced w) (audio w) (player w) (ui w).

Definition withNextId (n : nat) (w : World) : World :=
  mkWorld (localStorage w) (clock w) (timers w) n (canplayListeners w)
          (liveRegions w) (announced w) (audio w) (player w) (ui w).

Definition withListeners (f : list nat -> list nat) (w : World) : World :=
  mkWorld (localStorage w) (clock w) (timers w) (nextId w) (f (canplayListeners w))
          (liveRegions w) (announced w) (audio w) (player w) (ui w).

Definition withRegions (f : list (nat * string) -> list (nat * string)) (w : World) : World :=
  mkWorld (localStorage w) (clock w) (timers w) (nextId w) (canplayListeners w)
          (f (liveRegions w)) (announced w) (audio w) (player w) (ui w).

Definition withAnnounced (f : list (Z * string) -> list (Z * string)) (w : World) : World :=
  mkWorld (localStorage w) (clock w) (timers w) (nextId w) (canplayListeners w)
          (liveRegions w) (f (announced w)) (audio w) (player w) (ui w).

Definition withAudio (f : Audio -> Audio) (w : World) : World :=
  mkWorld (localStorage w) (clock w) (timers w) (nextId w) (canplayListeners w)
          (liveRegions w) (announced w) (f (audio w)) (player w) (ui w).

Definition withPlayer (f : Player -> Player) (w : World) : World :=
  mkWorld (localStorage w) (clock w) (timers w) (nextId w) (canplayListeners w)
          (liveRegions w) (announced w) (audio w) (f (player w)) (ui w).

Definition withUi (f : Ui -> Ui) (w : World) : World :=
  mkWorld (localStorage w) (clock w) (timers w) (nextId w) (canplayListeners w)
          (liveRegions w) (announced w) (audio w) (player w) (f (ui w)).

(** [setTimeout(task, delay)] *)
Definition setTimeout (k : Task) (delay : Z) (w : World) : World :=
  withTimers (fun ts => (ts ++ [mkTimer (clock w + delay) k])%list) w.

(** ** js/utils.js *)
Module Utils.
Section WithBrowser.
Variable B : Browser.

(** [stripHtml]: the text the HTML parser leaves of [html].  The
    element is detached, so its [innerText] is its [textContent]. *)
Definition stripHtml (html : string) : string :=
  if negb (JsString.truthy html) then ""
  else JsString.or (htmlTextContent B html) "".

(** [isValidUrl(string)] *)
Definition isValidUrl (s : string) : bool := urlConstructs B s.

(** [saveToLocalStorage] (storage is assumed to have room, so that
    [setItem] does not throw). *)
Definition saveToLocalStorage (key : string) (data : Stored) (w : World) : World :=
  withStorage (fun ls => <[key := data]> ls) w.

(** [loadFromLocalStorage(key)] with its default [null]: [None]. *)
Definition loadFromLocalStorage (key : string) (w : World) : option Stored :=
  match localStorage w !! key with
  | None => None
  | Some SMalformed => None          (* [JSON.parse] throws; caught *)
  | Some data => Some data
  end.

Definition timestampOf (data : Stored) : option Z :=
  match data with
  | SCache _ t => Some t
  | SCurrentEpisode _ t => Some t
  | SPlaybackPosition _ _ t => Some t
  | SMalformed => None
  end.

(** [data.value]; an item of another shape has none ([undefined]). *)
Definition valueOf (data : Stored) : option CacheValue :=
  match data with
  | SCache v _ => Some v
  | _ => None
  end.

(** [getCachedData(key, maxAge)]; [None] is [null] or [undefined]. *)
Definition getCachedData (key : string) (maxAge : Z) (w : World)
  : option CacheValue * World :=
  match localStorage w !! key with
  | None => (None, w)
  | Some data =>
      match timestampOf data with
      | None => (None, w)            (* [JSON.parse] throws; caught *)
      | Some timestamp =>
          if maxAge <? clock w - timestamp
          then (None, withStorage (fun ls => delete key ls) w)
          else (valueOf data, w)
      end
  end.

(** [setCachedData(key, value)] *)
Definition setCachedData (key : string) (value : CacheValue) (w : World) : World :=
  withStorage (fun ls => <[key := SCache value (clock w)]> ls) w.

(** [parseXMLFromString(xmlString)]: [None] is [null]. *)
Definition parseXMLFromString (xmlString : string) : option Dom.Document :=
  let xmlDoc := parseFromString B xmlString in
  match Dom.docQuerySelector (Dom.tag "parsererror") xmlDoc with
  | Some _ => None                   (* throws 'XML parsing error'; caught *)
  | None => Some xmlDoc
  end.

(** [announceToScreenReader(message)]: a live region is appended now,
    receives its text after 100 ms and is removed after 3000 ms. *)
Definition announceToScreenReader (message : string) (w : World) : World :=
  let region := nextId w in
  let w := withNextId (S region) w in
  let w := withRegions (fun rs => (rs ++ [(region, "")])%list) w in
  let w := setTimeout (AnnounceText region message) 100 w in
  setTimeout (AnnounceRemove region) 3000 w.

End WithBrowser.
End Utils.

(** ** [Array.prototype.sort] with a comparison function

    The comparison function returns a number or NaN ([None]); [sort]
    reads NaN as [+0] and puts [a] after [b] when the result is positive.
    The sort is stable.  With a consistent comparison function every
    stable sort returns the same array; for an inconsistent one the
    result is implementation-defined, and this insertion sort is one
    possible outcome. *)
Module JsArray.
Section Sort.
Context {A : Type}.
Variable compareFn : A -> A -> option Z.

Definition comesAfter (a b : A) : bool :=
  match compareFn a b with
  | Some v => 0 <? v
  | None => false
  end.

Fixpoint insert (x : A) (l : list A) : list A :=
  match l with
  | [] => [x]
  | y :: r => if comesAfter x y then y :: insert x r else x :: y :: r
  end.

Definition sort (l : list A) : list A := foldr insert [] l.

End Sort.
End JsArray.

(** ** js/api.js *)
Module PodcastAPI.

(** The three patterns of [parseDuration].  A greedy [\d+] followed by
    a colon can only end where the run of digits ends, so matching at a
    position never has to give digits back. *)
Definition digitsPlus (s : string) : option (string * string) :=
  match JsString.spanDigits s with
  | (EmptyString, _) => None
  | (d, rest) => Some (d, rest)
  end.

Definition colon (s : string) : option string :=
  match s with
  | String ":" r => Some r
  | _ => None
  end.

(** [/(\d+):(\d+):(\d+)/] anchored at the head of [s]: the three groups. *)
Definition timePatternAt (s : string) : option (string * string * string) :=
  '(hours, r1) ← digitsPlus s;
  r2 ← colon r1;
  '(minutes, r3) ← digitsPlus r2;
  r4 ← colon r3;
  '(seconds, _) ← digitsPlus r4;
  Some (hours, minutes, seconds).

(** [/(\d+):(\d+)/] anchored at the head of [s]. *)
Definition shortPatternAt (s : string) : option (string * string) :=
  '(minutes, r1) ← digitsPlus s;
  r2 ← colon r1;
  '(seconds, _) ← digitsPlus r2;
  Some (minutes, seconds).

(** An unanchored pattern is tried at every position, leftmost first. *)
Fixpoint search {A : Type} (at_ : string -> option A) (s : string) : option A :=
  match at_ s with
  | Some m => Some m
  | None =>
      match s with
      | EmptyString => None
      | String _ r => search at_ r
      end
  end.

Definition timePattern (s : string) : option (string * string * string) :=
  search timePatternAt s.

Definition shortPattern (s : string) : option (string * string) :=
  search shortPatternAt s.

(** [/^\d+$/.test(s)] *)
Definition numberPattern (s : string) : bool :=
  JsString.truthy s && JsString.allDigits s.

(** Arithmetic on numbers that may be NaN ([None]). *)
Definition jsAdd (a b : option Z) : option Z := x ← a; y ← b; Some (x + y).
Definition jsMul (a b : option Z) : option Z := x ← a; y ← b; Some (x * y).

(** [parseDuration(durationStr)] *)
Definition parseDuration (durationStr : string) : option Z :=
  if negb (JsString.truthy durationStr) then Some 0
  else if numberPattern durationStr then JsString.parseInt durationStr
  else
    match timePattern durationStr with
    | Some (hours, minutes, seconds) =>
        jsAdd (jsAdd (jsMul (JsString.parseInt hours) (Some 3600))
                     (jsMul (JsString.parseInt minutes) (Some 60)))
              (JsString.parseInt seconds)
    | None =>
        match shortPattern durationStr with
        | Some (minutes, seconds) =>
            jsAdd (jsMul (JsString.parseInt minutes) (Some 60))
                  (JsString.parseInt seconds)
        | None => Some 0
        end
    end.

(** [getTextContent(element, selector)] *)
Definition getTextContent (element : Dom.Node) (selector : string) : string :=
  match Dom.querySelector (Dom.tag selector) element with
  | Some node => JsString.trim (Dom.textContent node)
  | None => ""
  end.

(** A [getAttribute] result assigned to a variable that is only tested
    for truthiness and defaulted with [|| '']: null behaves as [""]. *)
Definition attr (name : string) (n : Dom.Node) : string :=
  default "" (Dom.getAttribute name (Dom.attributesOf n)).

(** [getImageUrl(item)] *)
Definition getImageUrl (item : Dom.Node) : string :=
  let imageUrl := "" in
  let imageUrl :=
    match Dom.querySelector (Dom.tag "itunes:image") item with
    | Some itunesImage => attr "href" itunesImage
    | None => imageUrl
    end in
  let imageUrl :=
    if negb (JsString.truthy imageUrl) then
      match Dom.querySelector
              (Dom.mkSelector "media:content" (Some (Dom.AttrEquals "medium" "image")))
              item with
      | Some mediaContent => attr "url" mediaContent
      | None => imageUrl
      end
    else imageUrl in
  let imageUrl :=
    if negb (JsString.truthy imageUrl) then
      match Dom.querySelector
              (Dom.mkSelector "enclosure" (Some (Dom.AttrStartsWith "type" "image")))
              item with
      | Some enclosure => attr "url" enclosure
      | None => imageUrl
      end
    else imageUrl in
  JsString.or imageUrl "".

Section WithBrowser.
Variable B : Browser.

(** [parseEpisodeItem(item)]; [None] is [null]. *)
Definition parseEpisodeItem (item : Dom.Node) : option Episode.t :=
  let title := getTextContent item "title" in
  let description :=
    JsString.or (getTextContent item "description")
                (getTextContent item "itunes:summary") in
  let pubDate := getTextContent item "pubDate" in
  let guid := getTextContent item "guid" in
  let enclosure := Dom.querySelector (Dom.tag "enclosure") item in
  let audioUrl :=
    match enclosure with
    | Some e => attr "url" e
    | None => ""
    end in
  if negb (JsString.truthy title) || negb (JsString.truthy audioUrl) then None
  else
    let duration :=
      JsString.or (getTextContent item "itunes:duration")
                  (getTextContent item "duration") in
    let artwork := getImageUrl item in
    Some {| Episode.title := Utils.stripHtml B title;
            Episode.description := Utils.stripHtml B description;
            Episode.audioUrl := audioUrl;
            Episode.pubDate := pubDate;
            Episode.duration := parseDuration duration;
            Episode.artwork := artwork;
            Episode.guid := JsString.or guid audioUrl;
            Episode.type :=
              match enclosure with
              | Some e => Dom.getAttribute "type" (Dom.attributesOf e)
              | None => Some "audio/mpeg"
              end |}.

(** The comparison function of the final sort:
    [new Date(b.pubDate) - new Date(a.pubDate)]. *)
Definition byPubDateDesc (a b : Episode.t) : option Z :=
  tb ← dateParse B (Episode.pubDate b);
  ta ← dateParse B (Episode.pubDate a);
  Some (tb - ta).

(** The [forEach] loop: items that yield an episode are pushed in
    document order.  Nothing in [parseEpisodeItem] throws on a DOM
    element, so the [catch] branch is not entered. *)
Definition collectEpisodes (items : list Dom.Node) : list Episode.t :=
  omap parseEpisodeItem items.

(** [parseEpisodesFromXML(xmlDoc)] *)
Definition parseEpisodesFromXML (xmlDoc : Dom.Document) : list Episode.t :=
  let items := Dom.docQuerySelectorAll (Dom.tag "item") xmlDoc in
  JsArray.sort byPubDateDesc (collectEpisodes items).

Definition showStatus (status : Z) : string :=
  NilZero.string_of_int (Z.to_int status).

Definition corsMessage : string :=
  "Unable to load episodes due to CORS restrictions. This podcast may not support direct streaming.".

Definition genericMessage : string :=
  "Failed to load episodes. Please try again later.".

(** The body of the [try] block of [getPodcastEpisodes]: the error it
    throws or the episodes, and the world it leaves.  The wait for the
    network is taken as instantaneous. *)
Definition fetchAndParse (feedUrl cacheKey : string) (w : World)
  : Result (list Episode.t) * World :=
  match fetch B feedUrl with
  | FetchRejected message => (Err message, w)
  | FetchResponse ok status xmlText =>
      if negb ok then (Err ("HTTP error! status: " ++ showStatus status), w)
      else
        match Utils.parseXMLFromString B xmlText with
        | None => (Err "Failed to parse RSS feed", w)
        | Some xmlDoc =>
            let episodes := parseEpisodesFromXML xmlDoc in
            (Ok episodes, Utils.setCachedData cacheKey (VEpisodes episodes) w)
        end
  end.

(** [getPodcastEpisodes(feedUrl)]: what the returned promise settles
    to.  A cache hit is returned as it is. *)
Definition getPodcastEpisodes (feedUrl : string) (w : World)
  : Result CacheValue * World :=
  if negb (JsString.truthy feedUrl) || negb (Utils.isValidUrl B feedUrl)
  then (Err "Valid feed URL is required", w)
  else
    let cacheKey := "episodes_" ++ btoa B feedUrl in
    match Utils.getCachedData cacheKey 1800000 w with
    | (Some cached, w) => (Ok cached, w)
    | (None, w) =>
        match fetchAndParse feedUrl cacheKey w with
        | (Ok episodes, w) => (Ok (VEpisodes episodes), w)
        | (Err message, w) =>
            if JsString.includes "CORS" message || JsString.includes "blocked" message
            then (Err corsMessage, w)
            else (Err genericMessage, w)
        end
    end.

End WithBrowser.
End PodcastAPI.

(** ** js/player.js *)
Module AudioPlayer.

(** What [onError] is called with: the media element's [error] event
    (with [target.error.code], when [target.error] is set) or a thrown
    error and its message. *)
Inductive ErrorArg : Type :=
| MediaErrorEvent (code : option Z)
| Thrown (message : string).

(** The events of the media element the player listens to.  An event
    carries the element's new state where the handler reads it. *)
Inductive MediaEvent : Type :=
| EvLoadStart
| EvLoadedMetadata (duration : JsNumber)
| EvTimeUpdate (currentTime : Q)
| EvEnded
| EvError (code : option Z)
| EvPlay
| EvPause
| EvWaiting
| EvCanPlayThrough
| EvCanPlay.

(** [MEDIA_ERR_ABORTED] .. [MEDIA_ERR_SRC_NOT_SUPPORTED] *)
Definition MEDIA_ERR_ABORTED : Z := 1.
Definition MEDIA_ERR_NETWORK : Z := 2.
Definition MEDIA_ERR_DECODE : Z := 3.
Definition MEDIA_ERR_SRC_NOT_SUPPORTED : Z := 4.

Definition HAVE_FUTURE_DATA : nat := 3.
Definition DAY_MS : Z := 24 * 60 * 60 * 1000.

(** Truthiness of a number: NaN and 0 are falsy. *)
Definition truthyNumber (n : JsNumber) : bool :=
  match n with
  | NaN => false
  | Num q => negb (Qeq_bool q 0)
  | Infinity => true
  end.

(** [n || 0] *)
Definition orZero (n : JsNumber) : JsNumber :=
  if truthyNumber n then n else Num 0.

(** [Math.min(a, b)] and [Math.max(a, b)] on non-negative infinities. *)
Definition mathMin (a b : JsNumber) : JsNumber :=
  match a, b with
  | NaN, _ | _, NaN => NaN
  | Infinity, x | x, Infinity => x
  | Num x, Num y => Num (Qmin x y)
  end.

Definition mathMax (a b : JsNumber) : JsNumber :=
  match a, b with
  | NaN, _ | _, NaN => NaN
  | Infinity, _ | _, Infinity => Infinity
  | Num x, Num y => Num (Qmax x y)
  end.

(** [this.audio.currentTime = v]: a value that is not finite makes the
    setter throw, which ends the handler without a change. *)
Definition setCurrentTime (v : JsNumber) (w : World) : World :=
  match v with
  | Num t => withAudio (fun a => mkAudio (src a) (paused a) t (duration a)
                                         (loadCalls a) (playCalls a)) w
  | _ => w
  end.

Definition setPaused (p : bool) (w : World) : World :=
  withAudio (fun a => mkAudio (src a) p (currentTime a) (duration a)
                              (loadCalls a) (playCalls a)) w.

Definition setSrc (url : string) (w : World) : World :=
  withAudio (fun a => mkAudio url (paused a) (currentTime a) (duration a)
                              (loadCalls a) (playCalls a)) w.

Definition setAudioDuration (d : JsNumber) (w : World) : World :=
  withAudio (fun a => mkAudio (src a) (paused a) (currentTime a) d
                              (loadCalls a) (playCalls a)) w.

(** [this.audio.load()] and the request part of [this.audio.play()]. *)
Definition audioLoad (w : World) : World :=
  withAudio (fun a => mkAudio (src a) (paused a) (currentTime a) (duration a)
                              (S (loadCalls a)) (playCalls a)) w.

Definition audioPlayRequested (w : World) : World :=
  withAudio (fun a => mkAudio (src a) (paused a) (currentTime a) (duration a)
                              (loadCalls a) (S (playCalls a))) w.

Definition setCurrentEpisode (e : option Episode.t) (w : World) : World :=
  withPlayer (fun p => mkPlayer e (isPlaying p) (playerTime p) (playerDuration p)) w.

Definition setIsPlaying (b : bool) (w : World) : World :=
  withPlayer (fun p => mkPlayer (currentEpisode p) b (playerTime p) (playerDuration p)) w.

Definition setPlayerTime (t : Q) (w : World) : World :=
  withPlayer (fun p => mkPlayer (currentEpisode p) (isPlaying p) t (playerDuration p)) w.

Definition setPlayerDuration (d : JsNumber) (w : World) : World :=
  withPlayer (fun p => mkPlayer (currentEpisode p) (isPlaying p) (playerTime p) d) w.

Definition setProgressBar (v : Q) (w : World) : World :=
  withUi (fun u => mkUi (controlsDisabled u) (spinner u) (playIconHidden u)
                        (pauseIconHidden u) (ariaLabel u) (episodeTitle u)
                        (episodePodcast u) v (playerShown u)
                        (mediaSessionTitle u) (mediaSessionArtist u)) w.

Definition setPlayerShown (b : bool) (w : World) : World :=
  withUi (fun u => mkUi (controlsDisabled u) (spinner u) (playIconHidden u)
                        (pauseIconHidden u) (ariaLabel u) (episodeTitle u)
                        (episodePodcast u) (progressBar u) b
                        (mediaSessionTitle u) (mediaSessionArtist u)) w.

(** [updatePlayPauseButton()] *)
Definition updatePlayPauseButton (w : World) : World :=
  let playing := isPlaying (player w) in
  withUi (fun u => mkUi (controlsDisabled u) (spinner u) playing (negb playing)
                        (if playing then "Pause" else "Play") (episodeTitle u)
                        (episodePodcast u) (progressBar u) (playerShown u)
                        (mediaSessionTitle u) (mediaSessionArtist u)) w.

(** [setLoadingState(loading)] *)
Definition setLoadingState (loading : bool) (w : World) : World :=
  if loading then
    withUi (fun u => mkUi true true true true (ariaLabel u) (episodeTitle u)
                          (episodePodcast u) (progressBar u) (playerShown u)
                          (mediaSessionTitle u) (mediaSessionArtist u)) w
  else
    updatePlayPauseButton
      (withUi (fun u => mkUi false false (playIconHidden u) (pauseIconHidden u)
                             (ariaLabel u) (episodeTitle u) (episodePodcast u)
                             (progressBar u) (playerShown u)
                             (mediaSessionTitle u) (mediaSessionArtist u)) w).

Definition showPlayer (w : World) : World := setPlayerShown true w.
Definition hidePlayer (w : World) : World := setPlayerShown false w.

Section WithBrowser.
Variable B : Browser.

(** [updateMediaSession(episode, podcastName)] *)
Definition updateMediaSession (episode : Episode.t) (podcastName : string)
           (w : World) : World :=
  if hasMediaSession B then
    withUi (fun u => mkUi (controlsDisabled u) (spinner u) (playIconHidden u)
                          (pauseIconHidden u) (ariaLabel u) (episodeTitle u)
                          (episodePodcast u) (progressBar u) (playerShown u)
                          (Episode.title episode) podcastName) w
  else w.

(** [updatePlayerUI(episode, podcastName)] (the artwork image and the
    two time labels are left out). *)
Definition updatePlayerUI (episode : Episode.t) (podcastName : string)
           (w : World) : World :=
  let w :=
    withUi (fun u => mkUi (controlsDisabled u) (spinner u) (playIconHidden u)
                          (pauseIconHidden u) (ariaLabel u) (Episode.title episode)
                          podcastName 0%Q (playerShown u)
                          (mediaSessionTitle u) (mediaSessionArtist u)) w in
  updateMediaSession episode podcastName w.

(** [saveCurrentEpisode()] *)
Definition saveCurrentEpisode (w : World) : World :=
  match currentEpisode (player w) with
  | Some episode =>
      Utils.saveToLocalStorage "currentEpisode"
        (SCurrentEpisode (Some episode) (clock w)) w
  | None => w
  end.

(** [savePlaybackPosition()] *)
Definition savePlaybackPosition (w : World) : World :=
  match currentEpisode (player w) with
  | Some episode =>
      if negb (Qle_bool (playerTime (player w)) 0) then
        Utils.saveToLocalStorage "playbackPosition"
          (SPlaybackPosition (Episode.guid episode) (playerTime (player w)) (clock w)) w
      else w
  | None => w
  end.

(** [onError(error)] *)
Definition errorMessageOf (error : ErrorArg) : string :=
  let errorMessage := "Unable to play this episode" in
  match error with
  | MediaErrorEvent (Some code) =>
      if code =? MEDIA_ERR_NETWORK then "Network error - check your connection"
      else if code =? MEDIA_ERR_DECODE then "Audio format not supported"
      else if code =? MEDIA_ERR_SRC_NOT_SUPPORTED
           then "Audio source not supported or blocked by CORS"
      else if code =? MEDIA_ERR_ABORTED then "Audio loading was aborted"
      else errorMessage
  | MediaErrorEvent None => errorMessage
  | Thrown message => if JsString.truthy message then message else errorMessage
  end.

Definition onError (error : ErrorArg) (w : World) : World :=
  let w := setLoadingState false w in
  let w := setIsPlaying false w in
  let w := updatePlayPauseButton w in
  Utils.announceToScreenReader (errorMessageOf error) w.

(** [play()]: the request to the media element and, where the element
    rejects it, the [catch] branch. *)
Definition play (w : World) : World :=
  match currentEpisode (player w) with
  | None => w
  | Some _ =>
      let w := audioPlayRequested w in
      match playRejection B (clock w) with
      | None => setPaused false w
      | Some message =>
          let w := Utils.announceToScreenReader "Unable to play episode" w in
          onError (Thrown message) w
      end
  end.

(** [pause()] *)
Definition pause (w : World) : World :=
  if negb (paused (audio w)) then setPaused true w else w.

(** [togglePlayPause()] *)
Definition togglePlayPause (w : World) : World :=
  match currentEpisode (player w) with
  | None => w
  | Some _ => if paused (audio w) then play w else pause w
  end.

Definition showSeconds (seconds : Z) : string :=
  NilZero.string_of_int (Z.to_int seconds).

(** [skipBack(seconds = 15)], for a whole number of seconds. *)
Definition skipBack (seconds : Z) (w : World) : World :=
  match currentEpisode (player w) with
  | None => w
  | Some _ =>
      let newTime :=
        mathMax (Num 0) (Num (currentTime (audio w) - inject_Z seconds)) in
      let w := setCurrentTime newTime w in
      Utils.announceToScreenReader
        ("Skipped back " ++ showSeconds seconds ++ " seconds") w
  end.

(** [skipForward(seconds = 30)], for a whole number of seconds. *)
Definition skipForward (seconds : Z) (w : World) : World :=
  match currentEpisode (player w) with
  | None => w
  | Some _ =>
      let newTime :=
        mathMin (orZero (duration (audio w)))
                (Num (currentTime (audio w) + inject_Z seconds)) in
      let w := setCurrentTime newTime w in
      Utils.announceToScreenReader
        ("Skipped forward " ++ showSeconds seconds ++ " seconds") w
  end.

(** [seek(percentage)] *)
Definition seek (percentage : Q) (w : World) : World :=
  match currentEpisode (player w) with
  | None => w
  | Some _ =>
      if negb (truthyNumber (duration (audio w))) then w
      else
        match duration (audio w) with
        | Num d => setCurrentTime (Num ((percentage / 100) * d)) w
        | _ => w   (* Infinity: the product is not finite *)
        end
  end.

(** [audio.readyState], read now. *)
Definition readyState (w : World) : nat := readyStateAt B (clock w).

(** The closure [tryPlay] of [waitForReadyAndPlay]. *)
Definition tryPlay (w : World) : World :=
  if (HAVE_FUTURE_DATA <=? readyState w)%nat then play w
  else setTimeout TryPlay 100 w.

Definition timeoutMessage : string :=
  "Episode loading timeout. Press play to try again.".

(** The callback of the ten second timer of [waitForReadyAndPlay]. *)
Definition loadingTimeout (listener : nat) (w : World) : World :=
  let w := withListeners (List.filter (fun l => negb (Nat.eqb l listener))) w in
  if (readyState w <? HAVE_FUTURE_DATA)%nat then
    let w := setLoadingState false w in
    Utils.announceToScreenReader timeoutMessage w
  else w.

(** The closure [onCanPlay] of [waitForReadyAndPlay]. *)
Definition onCanPlay (listener : nat) (w : World) : World :=
  let w := withListeners (List.filter (fun l => negb (Nat.eqb l listener))) w in
  play w.

(** [waitForReadyAndPlay()] *)
Definition waitForReadyAndPlay (w : World) : World :=
  let w := tryPlay w in
  let listener := nextId w in
  let w := withNextId (S listener) w in
  let w := withListeners (fun ls => (ls ++ [listener])%list) w in
  setTimeout (LoadingTimeout listener) 10000 w.

(** [loadEpisode(episode, podcastName, autoPlay)]: what the returned
    promise settles to, and the world left behind.  [None] is an absent
    episode.  No statement of the [try] block throws here, so its
    [catch] branch is not entered. *)
Definition loadEpisode (episode : option Episode.t) (podcastName : string)
           (autoPlay : bool) (w : World) : Result unit * World :=
  match episode with
  | None => (Err "Invalid episode data", w)
  | Some episode =>
      if negb (JsString.truthy (Episode.audioUrl episode))
      then (Err "Invalid episode data", w)
      else
        let w := setCurrentEpisode (Some episode) w in
        let w := setPaused true w in                 (* [audio.pause()] *)
        let w := setCurrentTime (Num 0) w in
        let w := setLoadingState true w in
        let w := setSrc (Episode.audioUrl episode) w in
        let w := audioLoad w in
        let w := updatePlayerUI episode podcastName w in
        let w := showPlayer w in
        let w := saveCurrentEpisode w in
        let w :=
          if autoPlay then
            let w := Utils.announceToScreenReader
                       ("Loading episode: " ++ Episode.title episode) w in
            waitForReadyAndPlay w
          else
            Utils.announceToScreenReader
              ("Loaded episode: " ++ Episode.title episode ++ ". Press play to start.") w in
        (Ok tt, w)
  end.

(** The media event handlers. *)
Definition onLoadStart (w : World) : World := setLoadingState true w.

Definition onLoadedMetadata (w : World) : World :=
  let w := setPlayerDuration (duration (audio w)) w in
  setLoadingState false w.

Definition onTimeUpdate (w : World) : World :=
  if negb (truthyNumber (duration (audio w))) then w
  else
    let w := setPlayerTime (currentTime (audio w)) w in
    let percentage :=
      match duration (audio w) with
      | Num d => ((playerTime (player w) / d) * 100)%Q
      | _ => 0%Q
      end in
    let w := setProgressBar percentage w in
    savePlaybackPosition w.

Definition onPlay (w : World) : World :=
  let w := setIsPlaying true w in
  let w := updatePlayPauseButton w in
  Utils.announceToScreenReader "Playing" w.

Definition onPause (w : World) : World :=
  let w := setIsPlaying false w in
  let w := updatePlayPauseButton w in
  Utils.announceToScreenReader "Paused" w.

Definition onEnded (w : World) : World :=
  let w := setIsPlaying false w in
  let w := updatePlayPauseButton w in
  let w := setProgressBar 0%Q w in
  Utils.announceToScreenReader "Episode finished" w.

Definition onWaiting (w : World) : World := setLoadingState true w.
Definition onCanPlayThrough (w : World) : World := setLoadingState false w.

(** Delivery of one media event: the element's state first, then the
    registered handlers. *)
Definition dispatch (ev : MediaEvent) (w : World) : World :=
  match ev with
  | EvLoadStart => onLoadStart w
  | EvLoadedMetadata d => onLoadedMetadata (setAudioDuration d w)
  | EvTimeUpdate t => onTimeUpdate (setCurrentTime (Num t) w)
  | EvEnded => onEnded (setPaused true w)
  | EvError code => onError (MediaErrorEvent code) w
  | EvPlay => onPlay (setPaused false w)
  | EvPause => onPause (setPaused true w)
  | EvWaiting => onWaiting w
  | EvCanPlayThrough => onCanPlayThrough w
  | EvCanPlay => foldl (fun w l => onCanPlay l w) w (canplayListeners w)
  end.

(** [loadSavedState()], run once by the constructor. *)
Definition loadSavedState (w : World) : World :=
  match Utils.loadFromLocalStorage "currentEpisode" w with
  | Some (SCurrentEpisode (Some episode) timestamp) =>
      let timeDiff := clock w - timestamp in
      if timeDiff <? DAY_MS then
        let w := updatePlayerUI episode "Previously Played" w in
        let w := showPlayer w in
        let w := setCurrentEpisode (Some episode) w in
        match Utils.loadFromLocalStorage "playbackPosition" w with
        | Some (SPlaybackPosition episodeGuid position timestamp) =>
            if String.eqb episodeGuid (Episode.guid episode) then
              let positionDiff := clock w - timestamp in
              if (positionDiff <? DAY_MS) && negb (Qle_bool position 0)
              then setCurrentTime (Num position) w
              else w
            else w
        | _ => w
        end
      else w
  | _ => w
  end.

(** [destroy()] *)
Definition destroy (w : World) : World :=
  hidePlayer (setCurrentEpisode None (pause w)).

(** *** The timer queue *)

(** The timer that fires next: the earliest due, and among those the
    one set first. *)
Fixpoint popEarliest (ts : list Timer) : option (Timer * list Timer) :=
  match ts with
  | [] => None
  | t :: r =>
      match popEarliest r with
      | None => Some (t, [])
      | Some (m, r') =>
          if due t <=? due m then Some (t, r) else Some (m, t :: r')
      end
  end.

Definition runTask (k : Task) (w : World) : World :=
  match k with
  | TryPlay => tryPlay w
  | LoadingTimeout listener => loadingTimeout listener w
  | AnnounceText region message =>
      let w := withRegions
                 (map (fun r => if Nat.eqb (fst r) region then (region, message) else r)) w in
      withAnnounced (fun l => (clock w, message) :: l) w
  | AnnounceRemove region =>
      withRegions (List.filter (fun r => negb (Nat.eqb (fst r) region))) w
  end.

(** One turn of the event loop with no media event pending: the clock
    moves to the next timer, which runs.  [None] when no timer is set. *)
Definition fireNext (w : World) : option World :=
  match popEarliest (timers w) with
  | None => None
  | Some (t, rest) =>
      let w := withTimers (fun _ => rest) w in
      let w := withClock (Z.max (clock w) (due t)) w in
      Some (runTask (task t) w)
  end.

(** Runs the timers due up to [deadline], at most [fuel] of them. *)
Fixpoint runUntil (deadline : Z) (fuel : nat) (w : World) : World :=
  match fuel with
  | O => w
  | S fuel' =>
      match popEarliest (timers w) with
      | Some (t, _) =>
          if due t <=? deadline then
            match fireNext w with
            | Some w' => runUntil deadline fuel' w'
            | None => w
            end
          else w
      | None => w
      end
  end.

(** Fires the next [n] timers. *)
Fixpoint fireMany (n : nat) (w : World) : option World :=
  match n with
  | O => Some w
  | S n' =>
      match fireNext w with
      | Some w' => fireMany n' w'
      | None => None
      end
  end.

End WithBrowser.

(** The page as the constructor finds it: nothing loaded, the player
    hidden, the given storage. *)
Definition freshWorld (storage : gmap string Stored) (now : Z) : World :=
  mkWorld storage now [] 0%nat [] [] []
          (mkAudio "" true 0%Q NaN 0%nat 0%nat)
          (mkPlayer None false 0%Q (Num 0))
          (mkUi false false false true "Play" "" "" 0%Q false "" "").


End AudioPlayer.

(** ** A concrete browser and concrete feeds, for the examples *)
Module Fixtures.
Import Dom.

(** Text left of simple markup: everything between [<] and [>] is
    dropped, as the HTML parser does for well-nested tags. *)
Fixpoint stripTags (inTag : bool) (s : string) : string :=
  match s with
  | EmptyString => EmptyString
  | String c r =>
      if Ascii.eqb c "<" then stripTags true r
      else if Ascii.eqb c ">" then
             (if inTag then stripTags false r else String c (stripTags false r))
      else if inTag then stripTags true r
      else String c (stripTags false r)
  end.

(** Days from 1970-01-01 to a date of the proleptic Gregorian calendar. *)
Definition daysFromCivil (y m d : Z) : Z :=
  let y' := if m <=? 2 then y - 1 else y in
  let era := y' / 400 in
  let yoe := y' - era * 400 in
  let mp := (m + 9) mod 12 in
  let doy := (153 * mp + 2) / 5 + d - 1 in
  let doe := yoe * 365 + yoe / 4 - yoe / 100 + doy in
  era * 146097 + doe - 719468.

(** The date-only ISO form [YYYY-MM-DD] of the date parser: midnight
    UTC of that day, in milliseconds.  Other text is an invalid date. *)
Definition isoDate (s : string) : option Z :=
  match s with
  | String y1 (String y2 (String y3 (String y4 (String "-"
      (String m1 (String m2 (String "-" (String d1 (String d2 EmptyString))))))))) =>
      let ds := [y1; y2; y3; y4; m1; m2; d1; d2] in
      if forallb JsString.isDigit ds then
        let v := JsString.digitValue in
        let y := 1000 * v y1 + 100 * v y2 + 10 * v y3 + v y4 in
        let m := 10 * v m1 + v m2 in
        let d := 10 * v d1 + v d2 in
        if (1 <=? m) && (m <=? 12) && (1 <=? d) && (d <=? 31)
        then Some (daysFromCivil y m d * 86400000)
        else None
      else None
  | _ => None
  end.

Definition parserErrorDocument : Document :=
  mkDocument (Element "parsererror" [] [TextNode "XML Parsing Error: no element found"]).

Definition text (name value : string) : Node := Element name [] [TextNode value].

Definition enclosure (url : string) : Node :=
  Element "enclosure" [("url", url); ("type", "audio/mpeg")] [].

Definition feedOf (items : list Node) : Document :=
  mkDocument (Element "rss" [] [Element "channel" [] (text "title" "Show" :: items)]).

Definition datedItem (name date : string) : Node :=
  Element "item" []
    [text "title" name; text "pubDate" date;
     enclosure ("https://example.com/" ++ name ++ ".mp3")].

(** Items dated 2024-01-01, 2024-03-01 and 2024-02-01, in feed order. *)
Definition threeDates : Document :=
  feedOf [datedItem "january" "2024-01-01";
          datedItem "march" "2024-03-01";
          datedItem "february" "2024-02-01"].

(** An item whose title text is nothing but markup. *)
Definition markupTitleItem : Node :=
  Element "item" [] [text "title" "<br>"; enclosure "https://example.com/a.mp3"].

(** An item with a title and a date but no enclosure. *)
Definition noEnclosureItem : Node :=
  Element "item" [] [text "title" "notes"; text "pubDate" "2024-04-01"].

Definition truncatedFeed : string := "<rss><channel><item>".

(** A browser whose feed server answers every request with [body]. *)
Definition browserServing (body : string) (document : Document) : Browser :=
  {| parseFromString := fun s =>
       if String.eqb s body then document else parserErrorDocument;
     htmlTextContent := stripTags false;
     dateParse := isoDate;
     urlConstructs := JsString.startsWith "http";
     btoa := fun s => s;
     fetch := fun _ => FetchResponse true 200 body;
     readyStateAt := fun _ => 0%nat;
     playRejection := fun _ => None;
     hasMediaSession := true |}.

(** The server sends a feed cut off in the middle; the XML parser
    reports it with a [parsererror] document. *)
Definition truncatedBrowser : Browser :=
  browserServing truncatedFeed parserErrorDocument.

Definition plainBrowser : Browser :=
  browserServing "<rss/>" (feedOf []).

(** A media element that has buffered enough only 15 seconds after the
    load; before that its [readyState] is 0. *)
Definition lateBrowser : Browser :=
  {| parseFromString := parseFromString plainBrowser;
     htmlTextContent := htmlTextContent plainBrowser;
     dateParse := dateParse plainBrowser;
     urlConstructs := urlConstructs plainBrowser;
     btoa := btoa plainBrowser;
     fetch := fetch plainBrowser;
     readyStateAt := fun t => if 15000 <=? t then 4%nat else 0%nat;
     playRejection := fun _ => None;
     hasMediaSession := true |}.

Definition feedUrl : string := "https://example.com/feed.xml".

Definition someEpisode : Episode.t :=
  {| Episode.title := "january";
     Episode.description := "";
     Episode.audioUrl := "https://example.com/january.mp3";
     Episode.pubDate := "2024-01-01";
     Episode.duration := Some 125;
     Episode.artwork := "";
     Episode.guid := "guid-1";
     Episode.type := Some "audio/mpeg" |}.

Definition noAudioEpisode : Episode.t :=
  {| Episode.title := "january";
     Episode.description := "";
     Episode.audioUrl := "";
     Episode.pubDate := "2024-01-01";
     Episode.duration := Some 125;
     Episode.artwork := "";
     Episode.guid := "guid-1";
     Episode.type := None |}.

Definition emptyWorld : World := AudioPlayer.freshWorld ∅ 0.

(** Storage left by an earlier session at time 0: the episode and a
    position of 42 seconds in it. *)
Definition savedStorage : gmap string Stored :=
  <["currentEpisode" := SCurrentEpisode (Some someEpisode) 0]>
    (<["playbackPosition" := SPlaybackPosition "guid-1" 42 0]> ∅).

Definition HOUR_MS : Z := 3600000.

End Fixtures.

(** ** Vocabulary of the statements *)
Module Spec.

(** An argument [loadEpisode] rejects: no episode, or one without an
    audio locator. *)
Definition invalidEpisode (episode : option Episode.t) : Prop :=
  episode = None \/ exists e, episode = Some e /\ Episode.audioUrl e = "".

(** A position that does not exceed a duration. *)
Definition withinDuration (t : Q) (d : JsNumber) : Prop :=
  match d with
  | Num q => (t <= q)%Q
  | Infinity => True
  | NaN => False
  end.

(** The persisted [CurrentEpisode] record holds [e] and is younger
    than 24 hours. *)
Definition restorable (w : World) (e : Episode.t) : Prop :=
  exists timestamp,
    localStorage w !! "currentEpisode" = Some (SCurrentEpisode (Some e) timestamp) /\
    clock w - timestamp < AudioPlayer.DAY_MS.

(** The persisted [PlaybackPosition] record is for [e], is younger than
    24 hours, and holds the positive position [position]. *)
Definition resumable (w : World) (e : Episode.t) (position : Q) : Prop :=
  exists timestamp,
    localStorage w !! "playbackPosition"
      = Some (SPlaybackPosition (Episode.guid e) position timestamp) /\
    clock w - timestamp < AudioPlayer.DAY_MS /\
    (0 < position)%Q.



Definition startsWithDigit (s : string) : bool :=
  match s with
  | String c _ => JsString.isDigit c
  | EmptyString => false
  end.






(** The items of a feed document, in document order. *)
Definition itemsOf (doc : Dom.Document) : list Dom.Node :=
  Dom.docQuerySelectorAll (Dom.tag "item") doc.

(** An item without an audio locator: it has no enclosure, or its
    enclosure has no (or an empty) [url]. *)
Definition lacksAudioLocator (item : Dom.Node) : Prop :=
  match Dom.querySelector (Dom.tag "enclosure") item with
  | None => True
  | Some e => PodcastAPI.attr "url" e = ""
  end.

(** The parsed publication date of an episode, and the order "at least
    as recent as" on episodes whose dates parse. *)
Definition pubTime (B : Browser) (e : Episode.t) : option Z :=
  dateParse B (Episode.pubDate e).

Definition newestFirst (B : Browser) (a b : Episode.t) : Prop :=
  exists ta tb, pubTime B a = Some ta /\ pubTime B b = Some tb /\ tb <= ta.

(** The readiness poll of [waitForReadyAndPlay] is still armed: a timer
    that will run [tryPlay] is pending. *)
Definition polling (w : World) : Prop :=
  exists t, In (mkTimer t TryPlay) (timers w).

(** The XML parser reports [xmlText] as not well-formed: the document it
    returns carries a [parsererror] element. *)
Definition notWellFormed (B : Browser) (xmlText : string) : Prop :=
  is_Some (Dom.docQuerySelector (Dom.tag "parsererror") (parseFromString B xmlText)).

(** What restoring an episode does before the position is looked at:
    the first three statements of the inner block of [loadSavedState]. *)
Definition restored (B : Browser) (e : Episode.t) (w : World) : World :=
  AudioPlayer.setCurrentEpisode (Some e)
    (AudioPlayer.showPlayer (AudioPlayer.updatePlayerUI B e "Previously Played" w)).

End Spec.

(** ** js/utils.js: the text helpers *)
Module Text.

Definition digitChar (d : Z) : ascii := ascii_of_nat (48 + Z.to_nat d).

(** The decimal digits of [n >= 0], most significant first, in front of
    [acc]; [fuel] bounds the number of digits. *)
Fixpoint showDigits (fuel : nat) (n : Z) (acc : string) : string :=
  match fuel with
  | O => acc
  | S fuel' =>
      let acc' := String (digitChar (n mod 10)) acc in
      if n <? 10 then acc' else showDigits fuel' (n / 10) acc'
  end.

(** [n.toString()] for an integer [n] (JavaScript prints integers this
    way below 1e21).  A number has no more decimal digits than bits. *)
Definition numberToString (n : Z) : string :=
  if n <? 0 then String "-" (showDigits (S (Z.to_nat (Z.log2 (- n)))) (- n) "")
  else showDigits (S (Z.to_nat (Z.log2 n))) n "".

(** [s.padStart(2, '0')] *)
Definition padStart2 (s : string) : string :=
  match s with
  | EmptyString => "00"
  | String c EmptyString => String "0" s
  | _ => s
  end.

(** [a % b]: the remainder has the sign of the dividend. *)
Definition truncate (q : Q) : Z :=
  if Qle_bool 0 q then Qfloor q else Qceiling q.

Definition jsRemainder (a b : Q) : Q := a - b * inject_Z (truncate (a / b)).

(** [formatDuration(seconds)] *)
Definition formatDuration (seconds : JsNumber) : string :=
  match seconds with
  | NaN => "0:00"
  | Infinity => "Infinity:NaN:NaN"
  | Num s =>
      if Qeq_bool s 0 then "0:00"
      else
        let hours := Qfloor (s / 3600) in
        let minutes := Qfloor (jsRemainder s 3600 / 60) in
        let secs := Qfloor (jsRemainder s 60) in
        if 0 <? hours then
          numberToString hours ++ ":" ++ padStart2 (numberToString minutes)
            ++ ":" ++ padStart2 (numberToString secs)
        else
          numberToString minutes ++ ":" ++ padStart2 (numberToString secs)
  end.

(** [text.substr(0, n)] *)
Fixpoint substr0 (n : nat) (text : string) : string :=
  match n, text with
  | S n', String c r => String c (substr0 n' r)
  | _, _ => EmptyString
  end.

Fixpoint allNonSpace (s : string) : bool :=
  match s with
  | EmptyString => true
  | String c r => negb (JsString.isSpace c) && allNonSpace r
  end.

(** Whether all of [s] is matched by [\s+\S*]: white space, and then no
    white space up to the end. *)
Definition spacesThenWord (s : string) : bool :=
  match s with
  | String c r => JsString.isSpace c && allNonSpace (JsString.trimStart r)
  | EmptyString => false
  end.

(** [s.replace(/\s+\S*$/, '')]: the leftmost place from which the rest
    is white space and then a last word is where the text is cut. *)
Fixpoint dropLastWord (s : string) : string :=
  if spacesThenWord s then EmptyString
  else
    match s with
    | EmptyString => EmptyString
    | String c r => String c (dropLastWord r)
    end.

(** [truncateText(text, maxLength)] *)
Definition truncateText (text : string) (maxLength : nat) : string :=
  if negb (JsString.truthy text) || (String.length text <=? maxLength)%nat then text
  else dropLastWord (substr0 maxLength text) ++ "...".

(** [s.replace(/[<>]/g, '')] *)
Fixpoint removeAngles (s : string) : string :=
  match s with
  | EmptyString => EmptyString
  | String c r =>
      if Ascii.eqb c "<" || Ascii.eqb c ">" then removeAngles r
      else String c (removeAngles r)
  end.

(** [sanitizeInput(input)] *)
Definition sanitizeInput (input : string) : string :=
  if negb (JsString.truthy input) then ""
  else removeAngles (JsString.trim input).

Fixpoint contains (c : ascii) (s : string) : bool :=
  match s with
  | EmptyString => false
  | String a r => Ascii.eqb a c || contains c r
  end.

(** Whether the last character of [s] is white space. *)
Fixpoint endsWithSpace (s : string) : bool :=
  match s with
  | EmptyString => false
  | String c EmptyString => JsString.isSpace c
  | String _ r => endsWithSpace r
  end.

End Text.

(** ** js/api.js: invalidation of the catalog cache *)
Module Catalog.

Definition isCatalogKey (key : string) : bool :=
  JsString.startsWith "search_" key ||
  JsString.startsWith "podcast_" key ||
  JsString.startsWith "episodes_" key.

(** [Object.keys(localStorage)] *)
Definition storageKeys (w : World) : list string :=
  map fst (map_to_list (localStorage w)).

(** [clearCache()].  The instance's own [cache] map is never written
    to, so clearing it changes nothing. *)
Definition clearCache (w : World) : World :=
  withStorage
    (fun ls => foldr (fun key ls => if isCatalogKey key then delete key ls else ls)
                     ls (storageKeys w))
    w.

End Catalog.

(** ** js/utils.js: relative dates *)
Module Dates.

Definition DAY_MS : Z := 1000 * 60 * 60 * 24.

(** [Math.ceil(a / b)] for whole numbers [a] and [b], [b] above 0. *)
Definition ceilDiv (a b : Z) : Z := - ((- a) / b).

Section WithBrowser.
Variable B : Browser.
(* [date.toLocaleDateString('en-US', ...)] of the date with the given
   time value ([None]: an invalid date) *)
Variable toLocaleDateString : option Z -> string.

(** [formatDate(dateString)] called at time [now].  Neither [new Date]
    nor [toLocaleDateString] throws on a string, so the [catch] branch
    is not entered.  On an invalid date [diffDays] is NaN and every
    comparison fails. *)
Definition formatDate (now : Z) (dateString : string) : string :=
  if negb (JsString.truthy dateString) then ""
  else
    match dateParse B dateString with
    | None => toLocaleDateString None
    | Some date =>
        let diffTime := Z.abs (now - date) in
        let diffDays := ceilDiv diffTime DAY_MS in
        if diffDays =? 1 then "Today"
        else if diffDays =? 2 then "Yesterday"
        else if diffDays <=? 7 then Text.numberToString diffDays ++ " days ago"
        else if diffDays <=? 30
             then Text.numberToString (ceilDiv diffDays 7) ++ " weeks ago"
        else if diffDays <=? 365
             then Text.numberToString (ceilDiv diffDays 30) ++ " months ago"
        else toLocaleDateString (Some date)
    end.

End WithBrowser.
End Dates.

(** ** Further vocabulary *)
Module Vocabulary.

(** Whether [parseEpisodeItem] keeps an item: it has title text and an
    enclosure with a [url]. *)
Definition kept (item : Dom.Node) : bool :=
  JsString.truthy (PodcastAPI.getTextContent item "title") &&
  match Dom.querySelector (Dom.tag "enclosure") item with
  | Some e => JsString.truthy (PodcastAPI.attr "url" e)
  | None => false
  end.

(** One turn of the event loop: the next timer fires (nothing happens
    when none is set) or the media element delivers an event. *)
Inductive Turn : Type :=
| Fire
| Media (ev : AudioPlayer.MediaEvent).

Definition turn (B : Browser) (t : Turn) (w : World) : World :=
  match t with
  | Fire => default w (AudioPlayer.fireNext B w)
  | Media ev => AudioPlayer.dispatch B ev w
  end.

(** A run of turns, first to last. *)
Definition turns (B : Browser) (ts : list Turn) (w : World) : World :=
  foldl (fun w t => turn B t w) w ts.

(** No auto-play attempt is under way: no poll is armed and no
    [canplay] listener is registered. *)
Definition idle (w : World) : Prop :=
  Forall (fun t => task t <> TryPlay) (timers w) /\ canplayListeners w = [].

(** Sample feeds: one already newest first (two episodes share a
    date), and one whose dates are not dates. *)
Definition newestFirstFeed : Dom.Document :=
  Fixtures.feedOf [Fixtures.datedItem "march" "2024-03-01";
                   Fixtures.datedItem "february-b" "2024-02-01";
                   Fixtures.datedItem "february-a" "2024-02-01";
                   Fixtures.datedItem "january" "2024-01-01"].

Definition undatedFeed : Dom.Document :=
  Fixtures.feedOf [Fixtures.datedItem "first" "soon";
                   Fixtures.datedItem "second" "";
                   Fixtures.datedItem "third" "yesterday"].

End Vocabulary.

(** * Properties *)

(** ** The time-bounded cache *)
Section Cache.

(** A read of an entry whose age has reached [maxAge] but not passed
    it: the value is still returned and the entry is kept. *)
Lemma getCachedData_at_maxAge :
  let w := AudioPlayer.freshWorld {[ "k" := SCache (VEpisodes []) 0 ]} 1000 in
  (clock w - 0 >= 1000) /\
  Utils.getCachedData "k" 1000 w = (Some (VEpisodes []), w) /\
  localStorage (snd (Utils.getCachedData "k" 1000 w)) !! "k"
    = Some (SCache (VEpisodes []) 0).
Proof. vm_compute. repeat split; congruence. Qed.

(** C3 (as the code has it): a read returns absent and deletes the
    entry once [now - storedTimestamp > maxAge], and returns the stored
    value, leaving the store as it is, whenever
    [now - storedTimestamp <= maxAge]. *)
Theorem getCachedData_expiry (key : string) (maxAge : Z) (w : World)
        (value : CacheValue) (timestamp : Z) :
  localStorage w !! key = Some (SCache value timestamp) ->
  (maxAge < clock w - timestamp ->
     fst (Utils.getCachedData key maxAge w) = None /\
     localStorage (snd (Utils.getCachedData key maxAge w)) !! key = None /\
     snd (Utils.getCachedData key maxAge w) = withStorage (delete key) w) /\
  (clock w - timestamp <= maxAge ->
     Utils.getCachedData key maxAge w = (Some value, w)).
Proof.
  intros Hk. unfold Utils.getCachedData. rewrite Hk. cbn.
  split; intros Hage.
  - assert ((maxAge <? clock w - timestamp) = true) as -> by lia.
    cbn. repeat split. apply lookup_delete_eq.
  - assert ((maxAge <? clock w - timestamp) = false) as -> by lia.
    reflexivity.
Qed.

Lemma getCachedData_expiry_witness :
  let w := AudioPlayer.freshWorld {[ "k" := SCache (VEpisodes []) 0 ]} 1000 in
  localStorage w !! "k" = Some (SCache (VEpisodes []) 0) /\
  (1000 - 0 <= 1000) /\
  Utils.getCachedData "k" 1000 w = (Some (VEpisodes []), w).
Proof.
  intros w. split; [reflexivity|]. split; [lia|].
  apply (proj2 (getCachedData_expiry "k" 1000 w (VEpisodes []) 0 eq_refl)).
  vm_compute. congruence.
Defined.

(** What [setCachedData] stores is read back unchanged until its age
    passes [maxAge]. *)
Lemma getCachedData_after_set (key : string) (value : CacheValue)
      (maxAge later : Z) (w : World) :
  clock w <= later -> later - clock w <= maxAge ->
  fst (Utils.getCachedData key maxAge (withClock later (Utils.setCachedData key value w)))
  = Some value.
Proof.
  intros H1 H2. unfold Utils.getCachedData, Utils.setCachedData. cbn.
  rewrite lookup_insert_eq. cbn.
  assert ((maxAge <? later - clock w) = false) as -> by lia. reflexivity.
Qed.

End Cache.

(** ** Loading an episode *)
Section LoadEpisode.
Variable B : Browser.

Lemma truthy_false_iff (s : string) : JsString.truthy s = false <-> s = "".
Proof. destruct s; cbn; split; congruence. Qed.

(** C8: [loadEpisode] fails, with the invalid-episode error, exactly
    when the episode is absent or has an empty [audioUrl]; otherwise
    the call succeeds. *)
Theorem loadEpisode_invalid_iff (episode : option Episode.t) (podcastName : string)
        (autoPlay : bool) (w : World) :
  (fst (AudioPlayer.loadEpisode B episode podcastName autoPlay w)
     = Err "Invalid episode data" <-> Spec.invalidEpisode episode) /\
  (fst (AudioPlayer.loadEpisode B episode podcastName autoPlay w) = Ok tt
     <-> ~ Spec.invalidEpisode episode).
Proof.
  unfold AudioPlayer.loadEpisode, Spec.invalidEpisode.
  destruct episode as [e|]; cbn.
  - destruct (JsString.truthy (Episode.audioUrl e)) eqn:Ht; cbn.
    + assert (Episode.audioUrl e <> "") as Hne.
      { intros Heq. apply truthy_false_iff in Heq. congruence. }
      split; split; try discriminate; try reflexivity.
      * intros [Hn | (e' & He & Hu)]; [discriminate | congruence].
      * intros _ [Hn | (e' & He & Hu)]; [discriminate | congruence].
    + apply truthy_false_iff in Ht.
      split; split; try discriminate; try reflexivity.
      * intros _. right. exists e. split; [reflexivity | exact Ht].
      * intros Hn. exfalso. apply Hn. right. exists e. split; [reflexivity | exact Ht].
  - split; split; try discriminate; try reflexivity.
    + intros _. left. reflexivity.
    + intros Hn. exfalso. apply Hn. left. reflexivity.
Qed.

(** C10: a call of [loadEpisode] with an absent episode or an empty
    [audioUrl] raises its error before anything is written: the whole
    world, and so the current episode, the media source and the persisted
    [currentEpisode] and [playbackPosition] records, is as before. *)
Theorem loadEpisode_failure_atomic (episode : option Episode.t) (podcastName : string)
        (autoPlay : bool) (w : World) :
  Spec.invalidEpisode episode ->
  let w' := snd (AudioPlayer.loadEpisode B episode podcastName autoPlay w) in
  fst (AudioPlayer.loadEpisode B episode podcastName autoPlay w)
    = Err "Invalid episode data" /\
  w' = w /\
  currentEpisode (player w') = currentEpisode (player w) /\
  src (audio w') = src (audio w) /\
  localStorage w' !! "currentEpisode" = localStorage w !! "currentEpisode" /\
  localStorage w' !! "playbackPosition" = localStorage w !! "playbackPosition".
Proof.
  intros Hinv w'.
  assert (AudioPlayer.loadEpisode B episode podcastName autoPlay w
          = (Err "Invalid episode data", w)) as Hcall.
  { unfold AudioPlayer.loadEpisode.
    destruct Hinv as [-> | (e & -> & Hu)]; [reflexivity|].
    rewrite Hu. reflexivity. }
  subst w'. rewrite Hcall. cbn. repeat split.
Qed.

End LoadEpisode.

Lemma loadEpisode_failure_atomic_witness :
  Spec.invalidEpisode (Some Fixtures.noAudioEpisode) /\
  snd (AudioPlayer.loadEpisode Fixtures.plainBrowser (Some Fixtures.noAudioEpisode)
         "Show" true Fixtures.emptyWorld) = Fixtures.emptyWorld.
Proof.
  assert (Spec.invalidEpisode (Some Fixtures.noAudioEpisode)) as Hinv.
  { right. exists Fixtures.noAudioEpisode. split; reflexivity. }
  split; [exact Hinv|].
  exact (proj1 (proj2 (loadEpisode_failure_atomic Fixtures.plainBrowser
                         (Some Fixtures.noAudioEpisode) "Show" true
                         Fixtures.emptyWorld Hinv))).
Defined.

(** A successful load, for comparison: the world does change. *)
Example loadEpisode_success_changes :
  let r := AudioPlayer.loadEpisode Fixtures.plainBrowser (Some Fixtures.someEpisode)
             "Show" false Fixtures.emptyWorld in
  fst r = Ok tt /\
  currentEpisode (player (snd r)) = Some Fixtures.someEpisode /\
  src (audio (snd r)) = "https://example.com/january.mp3" /\
  localStorage (snd r) !! "currentEpisode"
    = Some (SCurrentEpisode (Some Fixtures.someEpisode) 0) /\
  playCalls (audio (snd r)) = 0%nat.
Proof. vm_compute. repeat split; reflexivity. Qed.

(** ** Skipping *)
Section Skip.

Lemma orZero_not_NaN (d : JsNumber) : AudioPlayer.orZero d <> NaN.
Proof.
  unfold AudioPlayer.orZero.
  destruct d as [|q|]; cbn; try discriminate.
  destruct (Qeq_bool q 0); discriminate.
Qed.

(** C9: with an episode loaded, [skipForward] moves to
    [min(duration || 0, currentTime + seconds)], which is at most the live
    duration and at most 0 when the duration is unknown, and [skipBack]
    moves to [max(0, currentTime - seconds)], which is at least 0; with no
    episode loaded both leave everything as it is. *)
Theorem skip_clamps (seconds : Z) (w : World) :
  (is_Some (currentEpisode (player w)) ->
     let forward := currentTime (audio (AudioPlayer.skipForward seconds w)) in
     let back := currentTime (audio (AudioPlayer.skipBack seconds w)) in
     AudioPlayer.mathMin (AudioPlayer.orZero (duration (audio w)))
                         (Num (currentTime (audio w) + inject_Z seconds))
       = Num forward /\
     Spec.withinDuration forward (AudioPlayer.orZero (duration (audio w))) /\
     (AudioPlayer.truthyNumber (duration (audio w)) = true ->
        Spec.withinDuration forward (duration (audio w))) /\
     (duration (audio w) = NaN -> (forward <= 0)%Q) /\
     back = Qmax 0 (currentTime (audio w) - inject_Z seconds) /\
     (0 <= back)%Q) /\
  (currentEpisode (player w) = None ->
     AudioPlayer.skipForward seconds w = w /\ AudioPlayer.skipBack seconds w = w).
Proof.
  split.
  - intros [e He]. unfold AudioPlayer.skipForward, AudioPlayer.skipBack.
    rewrite He. cbn.
    assert (forall b d, AudioPlayer.truthyNumber d = b ->
              AudioPlayer.orZero d = if b then d else Num 0) as Hor.
    { intros b d <-. reflexivity. }
    destruct (duration (audio w)) as [|d|] eqn:Hd.
    + cbn. repeat split; try discriminate.
      * apply Q.le_min_l.
      * intros _. apply Q.le_min_l.
      * apply Q.le_max_l.
    + destruct (AudioPlayer.truthyNumber (Num d)) eqn:Ht;
        rewrite (Hor _ _ Ht); cbn; repeat split; try discriminate;
        try apply Q.le_min_l; try apply Q.le_max_l.
      intros _. apply Q.le_min_l.
    + cbn. repeat split; try discriminate. apply Q.le_max_l.
  - intros Hnone. unfold AudioPlayer.skipForward, AudioPlayer.skipBack.
    rewrite Hnone. split; reflexivity.
Qed.

End Skip.

Lemma skip_clamps_witness :
  let w := snd (AudioPlayer.loadEpisode Fixtures.plainBrowser (Some Fixtures.someEpisode)
                  "Show" false Fixtures.emptyWorld) in
  let w := AudioPlayer.dispatch Fixtures.plainBrowser (AudioPlayer.EvLoadedMetadata (Num 100)) w in
  let w := AudioPlayer.dispatch Fixtures.plainBrowser (AudioPlayer.EvTimeUpdate 90) w in
  (is_Some (currentEpisode (player w)) /\
   Spec.withinDuration
     (currentTime (audio (AudioPlayer.skipForward 30 w)))
     (duration (audio w))) /\
  (currentEpisode (player Fixtures.emptyWorld) = None /\
   AudioPlayer.skipBack 15 Fixtures.emptyWorld = Fixtures.emptyWorld).
Proof.
  intros w w0 w1.
  assert (is_Some (currentEpisode (player w1))) as Hsome by (eexists; reflexivity).
  split.
  - split; [exact Hsome|].
    exact (proj1 (proj2 (proj2 (proj1 (skip_clamps 30 w1) Hsome)))
             eq_refl).
  - split; [reflexivity|].
    exact (proj2 (proj2 (skip_clamps 15 Fixtures.emptyWorld) eq_refl)).
Defined.

(** Near the end of a 100 second track a forward skip lands on the
    duration; near the start a backward skip lands on 0. *)
Example skip_near_the_ends :
  let w := snd (AudioPlayer.loadEpisode Fixtures.plainBrowser (Some Fixtures.someEpisode)
                  "Show" false Fixtures.emptyWorld) in
  let w := AudioPlayer.dispatch Fixtures.plainBrowser (AudioPlayer.EvLoadedMetadata (Num 100)) w in
  let nearEnd := AudioPlayer.dispatch Fixtures.plainBrowser (AudioPlayer.EvTimeUpdate 90) w in
  let nearStart := AudioPlayer.dispatch Fixtures.plainBrowser (AudioPlayer.EvTimeUpdate 5) w in
  (currentTime (audio (AudioPlayer.skipForward 30 nearEnd)) == 100)%Q /\
  (currentTime (audio (AudioPlayer.skipBack 15 nearStart)) == 0)%Q.
Proof. vm_compute. split; reflexivity. Qed.

(** ** Resuming at start *)
Section Resume.
Variable B : Browser.

Lemma positive_position (q : Q) : negb (Qle_bool q 0) = true <-> (0 < q)%Q.
Proof.
  rewrite negb_true_iff. split.
  - intros H. apply Qnot_le_lt. intros Hle.
    apply Qle_bool_iff in Hle. congruence.
  - intros H. destruct (Qle_bool q 0) eqn:E; [|reflexivity].
    apply Qle_bool_iff in E. exfalso. exact (Qlt_not_le _ _ H E).
Qed.

Local Abbreviation restored := (Spec.restored B).

Lemma restored_keeps (e : Episode.t) (w : World) :
  localStorage (restored e w) = localStorage w /\
  clock (restored e w) = clock w /\
  audio (restored e w) = audio w /\
  timers (restored e w) = timers w /\
  currentEpisode (player (restored e w)) = Some e /\
  episodeTitle (ui (restored e w)) = Episode.title e /\
  playerShown (ui (restored e w)) = true.
Proof.
  unfold Spec.restored, AudioPlayer.updatePlayerUI, AudioPlayer.updateMediaSession.
  destruct (hasMediaSession B); cbn; repeat split.
Qed.

Lemma setCurrentTime_keeps (t : Q) (w : World) :
  let w' := AudioPlayer.setCurrentTime (Num t) w in
  player w' = player w /\ ui w' = ui w /\ timers w' = timers w /\
  localStorage w' = localStorage w /\
  currentTime (audio w') = t /\
  playCalls (audio w') = playCalls (audio w) /\
  paused (audio w') = paused (audio w) /\
  src (audio w') = src (audio w).
Proof. cbn. repeat split. Qed.

(** The three outcomes of [loadSavedState]. *)
Lemma loadSavedState_cases (w : World) :
  (AudioPlayer.loadSavedState B w = w /\ forall e, ~ Spec.restorable w e) \/
  (exists e, Spec.restorable w e /\
     ((AudioPlayer.loadSavedState B w = restored e w /\
       forall position, ~ Spec.resumable w e position) \/
      (exists position, Spec.resumable w e position /\
         AudioPlayer.loadSavedState B w
           = AudioPlayer.setCurrentTime (Num position) (restored e w)))).
Proof.
  unfold AudioPlayer.loadSavedState, Utils.loadFromLocalStorage.
  destruct (localStorage w !! "currentEpisode") as [[v t|[e|] t|g p t|]|] eqn:Hcur;
    try (left; split; [reflexivity|];
         intros e' (ts & Hts & _); congruence).
  destruct (clock w - t <? AudioPlayer.DAY_MS) eqn:Hage.
  2:{ left. split; [reflexivity|].
      intros e' (ts & Hts & Hlt). rewrite Hcur in Hts.
      injection Hts as -> ->. lia. }
  right. exists e. split.
  { exists t. split; [exact Hcur | lia]. }
  fold (restored e w).
  destruct (restored_keeps e w) as (Hls & Hclk & _).
  rewrite Hls, Hclk.
  destruct (localStorage w !! "playbackPosition") as [[v' t'|e' t'|g p t'|]|] eqn:Hpos;
    try (left; split; [reflexivity|];
         intros position (ts & Hts & _); congruence).
  destruct (String.eqb g (Episode.guid e)) eqn:Hg.
  2:{ left. split; [reflexivity|].
      intros position (ts & Hts & _). rewrite Hpos in Hts.
      injection Hts as -> -> ->.
      rewrite String.eqb_refl in Hg. discriminate. }
  apply String.eqb_eq in Hg. subst g.
  destruct ((clock w - t' <? AudioPlayer.DAY_MS) && negb (Qle_bool p 0)) eqn:Hok.
  - right. exists p. apply andb_true_iff in Hok as [H1 H2].
    apply positive_position in H2.
    split; [|reflexivity].
    exists t'. split; [exact Hpos|]. split; [lia | exact H2].
  - left. split; [reflexivity|].
    intros position (ts & Hts & Hlt & Hp). rewrite Hpos in Hts.
    injection Hts as -> ->.
    apply positive_position in Hp.
    apply andb_false_iff in Hok as [H1 | H2]; [lia | congruence].
Qed.

Lemma restorable_functional (w : World) (e1 e2 : Episode.t) :
  Spec.restorable w e1 -> Spec.restorable w e2 -> e1 = e2.
Proof. intros (t1 & H1 & _) (t2 & H2 & _). congruence. Qed.

Lemma resumable_functional (w : World) (e : Episode.t) (p1 p2 : Q) :
  Spec.resumable w e p1 -> Spec.resumable w e p2 -> p1 = p2.
Proof. intros (t1 & H1 & _) (t2 & H2 & _). congruence. Qed.

(** C7: at start the persisted [currentEpisode] record is restored (shown,
    marked as the loaded episode, no playback requested) when it is
    younger than 24 hours, and otherwise nothing happens, in particular
    for a record of 24 hours or more; the media position is then set to the
    persisted position when that record carries the restored episode's
    guid, is younger than 24 hours and holds a position above 0, and is
    left alone otherwise. *)
Theorem loadSavedState_resume (w : World) :
  let w' := AudioPlayer.loadSavedState B w in
  (forall e, Spec.restorable w e ->
     currentEpisode (player w') = Some e /\
     episodeTitle (ui w') = Episode.title e /\
     playerShown (ui w') = true /\
     playCalls (audio w') = playCalls (audio w) /\
     paused (audio w') = paused (audio w) /\
     src (audio w') = src (audio w) /\
     timers w' = timers w /\
     (forall position, Spec.resumable w e position ->
        currentTime (audio w') = position) /\
     ((forall position, ~ Spec.resumable w e position) ->
        audio w' = audio w)) /\
  ((forall e, ~ Spec.restorable w e) -> w' = w) /\
  (forall e timestamp,
     localStorage w !! "currentEpisode" = Some (SCurrentEpisode (Some e) timestamp) ->
     AudioPlayer.DAY_MS <= clock w - timestamp -> w' = w).
Proof.
  intros w'. subst w'.
  assert (forall e timestamp,
            localStorage w !! "currentEpisode" = Some (SCurrentEpisode (Some e) timestamp) ->
            AudioPlayer.DAY_MS <= clock w - timestamp ->
            forall e', ~ Spec.restorable w e') as Hstale.
  { intros e t Hcur Hage e' (t' & Hcur' & Hlt). rewrite Hcur in Hcur'.
    injection Hcur' as -> ->. lia. }
  destruct (loadSavedState_cases w)
    as [[Heq Hnone] | (e0 & Hres & [[Heq Hnopos] | (p & Hpos & Heq)])];
    rewrite Heq.
  - split; [|split].
    + intros e He. exfalso. exact (Hnone e He).
    + reflexivity.
    + reflexivity.
  - destruct (restored_keeps e0 w) as (_ & _ & Ha & Ht & Hc & Hti & Hsh).
    split; [|split].
    + intros e He. rewrite (restorable_functional w e e0 He Hres).
      rewrite Ha. repeat split; try assumption.
      intros position Hp. exfalso. exact (Hnopos position Hp).
    + intros Hnone. exfalso. exact (Hnone e0 Hres).
    + intros e t Hcur Hage. exfalso. exact (Hstale e t Hcur Hage e0 Hres).
  - destruct (restored_keeps e0 w) as (_ & _ & Ha & Ht & Hc & Hti & Hsh).
    split; [|split].
    + intros e He. rewrite (restorable_functional w e e0 He Hres).
      destruct (setCurrentTime_keeps p (restored e0 w))
        as (Hp' & Hu' & Ht' & _ & Hct & Hpc & Hpa & Hsrc).
      rewrite Hp', Hu', Ht', Hpc, Hpa, Hsrc, Hct, Ha.
      repeat split; try assumption.
      * intros position Hp. exact (resumable_functional w e0 _ _ Hpos Hp).
      * intros Hnopos. exfalso. exact (Hnopos p Hpos).
    + intros Hnone. exfalso. exact (Hnone e0 Hres).
    + intros e t Hcur Hage. exfalso. exact (Hstale e t Hcur Hage e0 Hres).
Qed.

End Resume.

Lemma loadSavedState_resume_witness :
  let w := AudioPlayer.freshWorld Fixtures.savedStorage Fixtures.HOUR_MS in
  let w25 := AudioPlayer.freshWorld Fixtures.savedStorage (25 * Fixtures.HOUR_MS) in
  (Spec.restorable w Fixtures.someEpisode /\
   Spec.resumable w Fixtures.someEpisode 42 /\
   currentEpisode (player (AudioPlayer.loadSavedState Fixtures.plainBrowser w))
     = Some Fixtures.someEpisode /\
   currentTime (audio (AudioPlayer.loadSavedState Fixtures.plainBrowser w)) = 42%Q /\
   playCalls (audio (AudioPlayer.loadSavedState Fixtures.plainBrowser w)) = 0%nat) /\
  (AudioPlayer.DAY_MS <= clock w25 - 0 /\
   AudioPlayer.loadSavedState Fixtures.plainBrowser w25 = w25).
Proof.
  intros w w25.
  assert (Spec.restorable w Fixtures.someEpisode) as Hres.
  { exists 0. split; [reflexivity | vm_compute; reflexivity]. }
  assert (Spec.resumable w Fixtures.someEpisode 42) as Hpos.
  { exists 0. split; [reflexivity|]. split; vm_compute; reflexivity. }
  destruct (loadSavedState_resume Fixtures.plainBrowser w) as (Hfresh & _ & _).
  destruct (Hfresh _ Hres) as (Hcur & _ & _ & Hplay & _ & _ & _ & Hseek & _).
  destruct (loadSavedState_resume Fixtures.plainBrowser w25) as (_ & _ & Hstale).
  split.
  - split; [exact Hres|]. split; [exact Hpos|]. split; [exact Hcur|].
    split; [exact (Hseek _ Hpos) | exact Hplay].
  - split; [vm_compute; congruence|].
    apply (Hstale Fixtures.someEpisode 0); [reflexivity | vm_compute; congruence].
Defined.

(** ** Fetching a feed *)
Section Feed.
Variable B : Browser.

Local Abbreviation notWellFormed := (Spec.notWellFormed B).

Lemma parseXMLFromString_null_iff (xmlText : string) :
  Utils.parseXMLFromString B xmlText = None <-> notWellFormed xmlText.
Proof.
  unfold Utils.parseXMLFromString, Spec.notWellFormed.
  destruct (Dom.docQuerySelector _ _) as [n|]; split; intros H.
  - eexists; reflexivity.
  - reflexivity.
  - discriminate.
  - destruct H as [x Hx]. discriminate.
Qed.

Lemma includes_CORS_parse_message :
  JsString.includes "CORS" "Failed to parse RSS feed" = false /\
  JsString.includes "blocked" "Failed to parse RSS feed" = false.
Proof. split; reflexivity. Qed.

(** C2 (as the code has it): for text that is not well-formed XML,
    [parseXMLFromString] absorbs the parser's fault and returns null; a
    call of [getPodcastEpisodes] that fetched such text (valid URL, nothing
    cached, response ok) returns no list: it fails to its caller with the
    generic load error, and stores nothing. *)
Theorem malformed_feed_is_reported (feedUrl xmlText : string) (status : Z) (w : World) :
  JsString.truthy feedUrl = true ->
  Utils.isValidUrl B feedUrl = true ->
  fst (Utils.getCachedData ("episodes_" ++ btoa B feedUrl) 1800000 w) = None ->
  fetch B feedUrl = FetchResponse true status xmlText ->
  notWellFormed xmlText ->
  Utils.parseXMLFromString B xmlText = None /\
  PodcastAPI.getPodcastEpisodes B feedUrl w
    = (Err PodcastAPI.genericMessage,
       snd (Utils.getCachedData ("episodes_" ++ btoa B feedUrl) 1800000 w)).
Proof.
  intros Hurl Hvalid Hmiss Hfetch Hbad.
  apply parseXMLFromString_null_iff in Hbad.
  split; [exact Hbad|].
  unfold PodcastAPI.getPodcastEpisodes. rewrite Hurl, Hvalid. cbn [negb orb].
  destruct (Utils.getCachedData _ _ w) as [cached w1] eqn:Hget.
  cbn in Hmiss. subst cached. cbn [snd].
  unfold PodcastAPI.fetchAndParse. rewrite Hfetch. cbn [negb].
  rewrite Hbad.
  destruct includes_CORS_parse_message as [-> ->]. reflexivity.
Qed.

End Feed.

(** A feed cut off in the middle: the caller of [getPodcastEpisodes] gets
    an error, not an empty list. *)
Lemma truncated_feed_throws :
  Spec.notWellFormed Fixtures.truncatedBrowser Fixtures.truncatedFeed /\
  fst (PodcastAPI.getPodcastEpisodes Fixtures.truncatedBrowser Fixtures.feedUrl
         Fixtures.emptyWorld)
    = Err "Failed to load episodes. Please try again later." /\
  fst (PodcastAPI.getPodcastEpisodes Fixtures.truncatedBrowser Fixtures.feedUrl
         Fixtures.emptyWorld)
    <> Ok (VEpisodes []).
Proof.
  split; [eexists; reflexivity|].
  split; [vm_compute; reflexivity | vm_compute; discriminate].
Qed.

Lemma malformed_feed_is_reported_witness :
  Spec.notWellFormed Fixtures.truncatedBrowser Fixtures.truncatedFeed /\
  PodcastAPI.getPodcastEpisodes Fixtures.truncatedBrowser Fixtures.feedUrl
    Fixtures.emptyWorld
  = (Err PodcastAPI.genericMessage,
     snd (Utils.getCachedData
            ("episodes_" ++ btoa Fixtures.truncatedBrowser Fixtures.feedUrl)
            1800000 Fixtures.emptyWorld)).
Proof.
  assert (Spec.notWellFormed Fixtures.truncatedBrowser Fixtures.truncatedFeed) as Hbad
    by (eexists; reflexivity).
  split; [exact Hbad|].
  exact (proj2 (malformed_feed_is_reported Fixtures.truncatedBrowser Fixtures.feedUrl
                  Fixtures.truncatedFeed 200 Fixtures.emptyWorld
                  eq_refl eq_refl eq_refl eq_refl Hbad)).
Defined.

(** A well-formed feed with no items does give the empty list, and the
    list is cached. *)
Example empty_feed_is_empty_list :
  fst (PodcastAPI.getPodcastEpisodes Fixtures.plainBrowser Fixtures.feedUrl
         Fixtures.emptyWorld) = Ok (VEpisodes []).
Proof. vm_compute. reflexivity. Qed.

(** ** Duration normalisation *)
Section Duration.
Import JsString PodcastAPI.
Local Arguments String.append !_ _ / : simpl nomatch.

Lemma append_assoc (a b c : string) : (a ++ b) ++ c = a ++ (b ++ c).
Proof. induction a as [|x a IH]; simpl; [reflexivity | f_equal; exact IH]. Qed.







Lemma colon_not_digit (r : string) : Spec.startsWithDigit (":" ++ r) = false.
Proof. reflexivity. Qed.














(** The patterns are not anchored: text around a duration is skipped,
    and [H:MM:SS] is looked for before [MM:SS]. *)
Example parseDuration_unanchored :
  parseDuration "about 1:02:03 long" = Some 3723 /\
  parseDuration "1:02" = Some 62 /\
  parseDuration "1:" = Some 0.
Proof. repeat split; reflexivity. Qed.

End Duration.

(** ** Parsing a feed *)
Section Parse.
Variable B : Browser.
Import PodcastAPI.

Lemma insert_Permutation {A : Type} (cmp : A -> A -> option Z) (x : A) (l : list A) :
  JsArray.insert cmp x l ≡ₚ x :: l.
Proof.
  induction l as [|y r IH]; cbn; [reflexivity|].
  destruct (JsArray.comesAfter cmp x y); [|reflexivity].
  rewrite IH. apply Permutation_swap.
Qed.

Lemma sort_Permutation {A : Type} (cmp : A -> A -> option Z) (l : list A) :
  JsArray.sort cmp l ≡ₚ l.
Proof.
  induction l as [|x r IH]; cbn; [reflexivity|].
  rewrite insert_Permutation. now rewrite IH.
Qed.

Lemma comesAfter_dated (a b : Episode.t) (ta tb : Z) :
  Spec.pubTime B a = Some ta -> Spec.pubTime B b = Some tb ->
  JsArray.comesAfter (byPubDateDesc B) a b = (ta <? tb).
Proof.
  unfold JsArray.comesAfter, byPubDateDesc, Spec.pubTime.
  intros -> ->. cbn. destruct (Z.ltb_spec ta tb); lia.
Qed.

Lemma insert_sorted (x : Episode.t) (l : list Episode.t) :
  is_Some (Spec.pubTime B x) ->
  Forall (fun e => is_Some (Spec.pubTime B e)) l ->
  StronglySorted (Spec.newestFirst B) l ->
  StronglySorted (Spec.newestFirst B) (JsArray.insert (byPubDateDesc B) x l).
Proof.
  intros [tx Hx] Hall Hsorted.
  induction l as [|y r IH]; cbn.
  - repeat constructor.
  - apply Forall_cons in Hall as [[ty Hy] Hall].
    apply StronglySorted_inv in Hsorted as [Hr Hyr].
    rewrite (comesAfter_dated x y tx ty Hx Hy).
    destruct (Z.ltb_spec tx ty) as [Hlt | Hge].
    + apply SSorted_cons; [now apply IH|].
      rewrite insert_Permutation. constructor; [|exact Hyr].
      exists ty, tx. repeat split; try assumption. lia.
    + apply SSorted_cons; [now apply SSorted_cons|].
      constructor.
      * exists tx, ty. repeat split; assumption.
      * eapply Forall_impl; [exact Hyr|].
        intros z (ty' & tz & Hy' & Hz & Hle). cbn.
        exists tx, tz. repeat split; try assumption.
        rewrite Hy in Hy'. injection Hy' as <-. lia.
Qed.

Lemma sort_cons {A : Type} (cmp : A -> A -> option Z) (x : A) (l : list A) :
  JsArray.sort cmp (x :: l) = JsArray.insert cmp x (JsArray.sort cmp l).
Proof. reflexivity. Qed.

Lemma sort_sorted (l : list Episode.t) :
  Forall (fun e => is_Some (Spec.pubTime B e)) l ->
  StronglySorted (Spec.newestFirst B) (JsArray.sort (byPubDateDesc B) l).
Proof.
  induction l as [|x r IH]; intros Hall; [constructor|].
  rewrite sort_cons.
  apply Forall_cons in Hall as [Hx Hall].
  apply insert_sorted; [exact Hx | | now apply IH].
  now rewrite sort_Permutation.
Qed.

(** What an episode that [parseEpisodeItem] returns is made of. *)
Lemma parseEpisodeItem_Some (item : Dom.Node) (e : Episode.t) :
  parseEpisodeItem B item = Some e ->
  Episode.audioUrl e <> "" /\
  getTextContent item "title" <> "" /\
  Episode.title e = Utils.stripHtml B (getTextContent item "title") /\
  Episode.pubDate e = getTextContent item "pubDate" /\
  ~ Spec.lacksAudioLocator item.
Proof.
  unfold parseEpisodeItem, Spec.lacksAudioLocator.
  destruct (JsString.truthy (getTextContent item "title")) eqn:Ht; cbn [negb orb];
    [|discriminate].
  destruct (Dom.querySelector (Dom.tag "enclosure") item) as [enc|]; cbn;
    [|discriminate].
  destruct (JsString.truthy (attr "url" enc)) eqn:Hu; cbn [negb]; [|discriminate].
  intros H. injection H as <-. cbn.
  repeat split; intros Heq; rewrite Heq in *; discriminate.
Qed.

Lemma parseEpisodeItem_lacking (item : Dom.Node) :
  Spec.lacksAudioLocator item -> parseEpisodeItem B item = None.
Proof.
  unfold parseEpisodeItem, Spec.lacksAudioLocator.
  destruct (Dom.querySelector (Dom.tag "enclosure") item) as [enc|].
  - intros ->. cbn. now rewrite orb_true_r.
  - intros _. cbn. now rewrite orb_true_r.
Qed.

(** The parts of C4 that hold: every returned episode has a non-empty
    [audioUrl] and comes from an item whose trimmed title text is not
    empty; an item without an audio locator yields no episode, whatever its
    other fields, and the episodes of the other items are what they are
    without it. *)
Lemma parsed_episodes_have_audio :
  (forall doc e,
     e ∈ parseEpisodesFromXML B doc ->
     Episode.audioUrl e <> "" /\
     exists item, item ∈ Spec.itemsOf doc /\ parseEpisodeItem B item = Some e /\
                  getTextContent item "title" <> "") /\
  (forall doc e item,
     e ∈ parseEpisodesFromXML B doc -> Spec.lacksAudioLocator item ->
     parseEpisodeItem B item <> Some e) /\
  (forall doc1 doc2 before item after,
     Spec.itemsOf doc1 = (before ++ item :: after)%list ->
     Spec.itemsOf doc2 = (before ++ after)%list ->
     Spec.lacksAudioLocator item ->
     parseEpisodesFromXML B doc1 = parseEpisodesFromXML B doc2).
Proof.
  split; [|split].
  - intros doc e He. unfold parseEpisodesFromXML in He.
    rewrite sort_Permutation in He.
    apply list_elem_of_omap in He as (item & Hitem & Hparse).
    pose proof (parseEpisodeItem_Some item e Hparse) as (Hu & Ht & _).
    split; [exact Hu|]. exists item. repeat split; assumption.
  - intros doc e item _ Hlack Hparse.
    rewrite (parseEpisodeItem_lacking item Hlack) in Hparse. discriminate.
  - intros doc1 doc2 before item after H1 H2 Hlack.
    unfold parseEpisodesFromXML, collectEpisodes.
    fold (Spec.itemsOf doc1). fold (Spec.itemsOf doc2).
    rewrite H1, H2, !omap_app. cbn.
    now rewrite (parseEpisodeItem_lacking item Hlack).
Qed.

(** C6: when the [pubDate] of every item of the feed parses, the
    returned list is the parsed episodes reordered so that each episode is
    at least as recent as all the episodes after it. *)
Theorem episodes_sorted_newest_first (doc : Dom.Document) :
  Forall (fun item => is_Some (dateParse B (getTextContent item "pubDate")))
         (Spec.itemsOf doc) ->
  StronglySorted (Spec.newestFirst B) (parseEpisodesFromXML B doc) /\
  parseEpisodesFromXML B doc ≡ₚ collectEpisodes B (Spec.itemsOf doc).
Proof.
  intros Hall. split; [|apply sort_Permutation].
  apply sort_sorted. apply Forall_forall. intros e He.
  apply list_elem_of_omap in He as (item & Hitem & Hparse).
  rewrite Forall_forall in Hall. specialize (Hall item Hitem).
  pose proof (parseEpisodeItem_Some item e Hparse) as (_ & _ & _ & Hd & _).
  unfold Spec.pubTime. now rewrite Hd.
Qed.

End Parse.

Lemma episodes_sorted_newest_first_witness :
  Forall (fun item => is_Some (dateParse Fixtures.plainBrowser
                                 (PodcastAPI.getTextContent item "pubDate")))
         (Spec.itemsOf Fixtures.threeDates) /\
  StronglySorted (Spec.newestFirst Fixtures.plainBrowser)
    (PodcastAPI.parseEpisodesFromXML Fixtures.plainBrowser Fixtures.threeDates).
Proof.
  assert (Forall (fun item => is_Some (dateParse Fixtures.plainBrowser
                                 (PodcastAPI.getTextContent item "pubDate")))
                 (Spec.itemsOf Fixtures.threeDates)) as Hall.
  { repeat constructor; eexists; vm_compute; reflexivity. }
  split; [exact Hall|].
  exact (proj1 (episodes_sorted_newest_first Fixtures.plainBrowser
                  Fixtures.threeDates Hall)).
Defined.

(** Items dated 2024-01-01, 2024-03-01, 2024-02-01 come back as
    2024-03-01, 2024-02-01, 2024-01-01. *)
Example three_dates_order :
  map Episode.pubDate
      (PodcastAPI.parseEpisodesFromXML Fixtures.plainBrowser Fixtures.threeDates)
  = ["2024-03-01"; "2024-02-01"; "2024-01-01"].
Proof. vm_compute. reflexivity. Qed.

(** C4, evaluated on an item whose title text is only markup: the text
    ["<br>"] passes the test [!title], [stripHtml] then leaves nothing of
    it, and the item is returned as an episode with an empty title. *)
Theorem markup_only_title_is_kept :
  PodcastAPI.getTextContent Fixtures.markupTitleItem "title" = "<br>" /\
  PodcastAPI.parseEpisodesFromXML Fixtures.plainBrowser
    (Fixtures.feedOf [Fixtures.markupTitleItem])
  = [ {| Episode.title := "";
         Episode.description := "";
         Episode.audioUrl := "https://example.com/a.mp3";
         Episode.pubDate := "";
         Episode.duration := Some 0;
         Episode.artwork := "";
         Episode.guid := "https://example.com/a.mp3";
         Episode.type := Some "audio/mpeg" |} ].
Proof. split; vm_compute; reflexivity. Qed.

(** An item without an enclosure is dropped and the others are kept. *)
Example no_enclosure_item_is_dropped :
  PodcastAPI.parseEpisodesFromXML Fixtures.plainBrowser
    (Fixtures.feedOf [Fixtures.datedItem "january" "2024-01-01";
                      Fixtures.noEnclosureItem;
                      Fixtures.datedItem "march" "2024-03-01"])
  = PodcastAPI.parseEpisodesFromXML Fixtures.plainBrowser
      (Fixtures.feedOf [Fixtures.datedItem "january" "2024-01-01";
                        Fixtures.datedItem "march" "2024-03-01"]).
Proof. vm_compute. reflexivity. Qed.

(** ** Auto-play when the media never becomes ready *)
Section Autoplay.
Variable B : Browser.
Hypothesis never_ready :
  forall t, (readyStateAt B t < AudioPlayer.HAVE_FUTURE_DATA)%nat.
Import AudioPlayer.

Lemma popEarliest_In (ts : list Timer) (t : Timer) (rest : list Timer) :
  popEarliest ts = Some (t, rest) ->
  forall x, In x ts <-> x = t \/ In x rest.
Proof.
  revert t rest. induction ts as [|a r IH]; intros t rest; cbn; [discriminate|].
  destruct (popEarliest r) as [[m r']|] eqn:Hr.
  - specialize (IH m r' eq_refl).
    destruct (due a <=? due m); intros H; injection H as <- <-; intros x.
    + cbn. intuition congruence.
    + cbn. rewrite IH. intuition congruence.
  - intros H. injection H as <- <-. intros x.
    destruct r; [|cbn in Hr; destruct (popEarliest r); [destruct p; destruct (_ <=? _)|];
                  discriminate].
    cbn. intuition congruence.
Qed.

Lemma popEarliest_nonempty (ts : list Timer) :
  ts <> [] -> exists t rest, popEarliest ts = Some (t, rest).
Proof.
  destruct ts as [|a r]; [congruence|]. intros _. cbn.
  destruct (popEarliest r) as [[m r']|]; [destruct (due a <=? due m)|]; eauto.
Qed.

Lemma tryPlay_not_ready (w : World) : tryPlay B w = setTimeout TryPlay 100 w.
Proof.
  unfold tryPlay, readyState.
  destruct (Nat.leb_spec HAVE_FUTURE_DATA (readyStateAt B (clock w))) as [H|H];
    [|reflexivity].
  pose proof (never_ready (clock w)). lia.
Qed.

Lemma loadingTimeout_not_ready (listener : nat) (w : World) :
  loadingTimeout B listener w
  = Utils.announceToScreenReader timeoutMessage
      (setLoadingState false
         (withListeners (List.filter (fun l => negb (Nat.eqb l listener))) w)).
Proof.
  unfold loadingTimeout, readyState. cbn [clock withListeners].
  destruct (Nat.ltb_spec (readyStateAt B (clock w)) HAVE_FUTURE_DATA) as [H|H];
    [reflexivity|].
  pose proof (never_ready (clock w)). lia.
Qed.

(** No task requests playback, no task cancels a timer, and the poll
    re-arms itself. *)
Lemma runTask_not_ready (k : Task) (w : World) :
  playCalls (audio (runTask B k w)) = playCalls (audio w) /\
  (forall x, In x (timers w) -> In x (timers (runTask B k w))) /\
  (k = TryPlay -> Spec.polling (runTask B k w)).
Proof.
  destruct k as [|listener|region message|region]; cbn [runTask].
  - rewrite tryPlay_not_ready. cbn. repeat split.
    + intros x Hx. apply in_or_app. now left.
    + intros _. exists (clock w + 100). cbn. apply in_or_app. right. now left.
  - rewrite loadingTimeout_not_ready. cbn. repeat split; [|discriminate].
    intros x Hx. rewrite <- !app_assoc. apply in_or_app. now left.
  - cbn. repeat split; [tauto | discriminate].
  - cbn. repeat split; [tauto | discriminate].
Qed.

Lemma fireNext_polling (w : World) :
  Spec.polling w ->
  exists w', fireNext B w = Some w' /\ Spec.polling w' /\
             playCalls (audio w') = playCalls (audio w).
Proof.
  intros [t Ht]. unfold fireNext.
  destruct (popEarliest_nonempty (timers w)) as (next & rest & Hpop).
  { intros Hnil. rewrite Hnil in Ht. contradiction. }
  rewrite Hpop. eexists. split; [reflexivity|].
  set (w1 := withClock _ (withTimers _ w)).
  destruct (runTask_not_ready (task next) w1) as (Hplay & Hkeep & Hre).
  split; [|rewrite Hplay; reflexivity].
  destruct (proj1 (popEarliest_In _ _ _ Hpop _) Ht) as [Heq | Hin].
  - apply Hre. rewrite <- Heq. reflexivity.
  - exists t. apply Hkeep. exact Hin.
Qed.

Lemma fireMany_polling (n : nat) (w : World) :
  Spec.polling w ->
  exists w', fireMany B n w = Some w' /\ Spec.polling w' /\
             playCalls (audio w') = playCalls (audio w).
Proof.
  revert w. induction n as [|n IH]; intros w Hw; cbn.
  - exists w. repeat split. exact Hw.
  - destruct (fireNext_polling w Hw) as (w1 & -> & Hw1 & Hp1).
    destruct (IH w1 Hw1) as (w2 & Hrun & Hw2 & Hp2).
    exists w2. repeat split; [exact Hrun | exact Hw2 | congruence].
Qed.

(** When the media element never reaches [HAVE_FUTURE_DATA], an
    auto-play load requests no playback, however many timers fire after
    it, and its poll stays armed after each of them: the event loop never
    runs out of timers. *)
Lemma autoplay_polls_forever (e : Episode.t) (podcastName : string) (w : World) (n : nat) :
  Episode.audioUrl e <> "" ->
  exists w', fireMany B n (snd (loadEpisode B (Some e) podcastName true w)) = Some w' /\
             Spec.polling w' /\
             playCalls (audio w') = playCalls (audio w).
Proof.
  intros Hurl.
  assert (JsString.truthy (Episode.audioUrl e) = true) as Ht.
  { destruct (Episode.audioUrl e); [congruence | reflexivity]. }
  unfold loadEpisode. rewrite Ht. cbn [negb snd].
  unfold waitForReadyAndPlay. rewrite tryPlay_not_ready.
  match goal with |- context [fireMany B n ?w0] => set (start := w0) end.
  assert (Spec.polling start) as Hstart.
  { exists (clock w + 100). subst start.
    unfold updatePlayerUI, updateMediaSession.
    destruct (hasMediaSession B); cbn;
      rewrite !List.in_app_iff; cbn; tauto. }
  assert (playCalls (audio start) = playCalls (audio w)) as Hcalls.
  { subst start. unfold updatePlayerUI, updateMediaSession.
    destruct (hasMediaSession B); reflexivity. }
  destruct (fireMany_polling n start Hstart) as (w' & Hrun & Hpoll & Hp).
  exists w'. repeat split; [exact Hrun | exact Hpoll | congruence].
Qed.

End Autoplay.

(** C1, evaluated where the media element stays at [readyState] 0 and
    emits nothing.  The load enters the loading state.  Ten seconds later
    the timeout has removed the [canplay] listener and left the loading
    state, its message reaches the live region at 10100 ms, and playback
    was never requested.  The poll, however, is not cancelled: its next
    run is pending at 10200 ms. *)
Theorem autoplay_timeout_keeps_polling :
  let w0 := snd (AudioPlayer.loadEpisode Fixtures.plainBrowser
                   (Some Fixtures.someEpisode) "Show" true Fixtures.emptyWorld) in
  let w := AudioPlayer.runUntil Fixtures.plainBrowser 10100 1000 w0 in
  (controlsDisabled (ui w0) = true /\ canplayListeners w0 = [1%nat]) /\
  (announced w = [(10100, AudioPlayer.timeoutMessage);
                  (100, "Loading episode: january")] /\
   controlsDisabled (ui w) = false /\
   spinner (ui w) = false /\
   playCalls (audio w) = 0%nat /\
   paused (audio w) = true /\
   canplayListeners w = []) /\
  timers w = [mkTimer 13000 (AnnounceRemove 2); mkTimer 10200 TryPlay].
Proof. vm_compute. repeat split; reflexivity. Qed.

(** What the pending poll does when the media becomes ready after the
    timeout was announced: playback starts by itself at 15 seconds. *)
Example late_readiness_starts_playback :
  let w0 := snd (AudioPlayer.loadEpisode Fixtures.lateBrowser
                   (Some Fixtures.someEpisode) "Show" true Fixtures.emptyWorld) in
  playCalls (audio (AudioPlayer.runUntil Fixtures.lateBrowser 14900 1000 w0)) = 0%nat /\
  map snd (announced (AudioPlayer.runUntil Fixtures.lateBrowser 14900 1000 w0))
    = [AudioPlayer.timeoutMessage; "Loading episode: january"] /\
  playCalls (audio (AudioPlayer.runUntil Fixtures.lateBrowser 15000 1000 w0)) = 1%nat /\
  paused (audio (AudioPlayer.runUntil Fixtures.lateBrowser 15000 1000 w0)) = false.
Proof. vm_compute. repeat split; reflexivity. Qed.

(** ** Printing and reading back a duration *)
Section FormatDuration.
Import JsString PodcastAPI Text.
Local Arguments String.append !_ _ / : simpl nomatch.

















(** What is printed for the durations the player meets: nothing known
    yet, under an hour, an hour and more, a fraction of a second. *)
Example formatDuration_samples :
  formatDuration NaN = "0:00" /\ formatDuration (Num 0) = "0:00" /\
  formatDuration (Num 125) = "2:05" /\ formatDuration (Num 3723) = "1:02:03" /\
  formatDuration (Num (7#2)) = "0:03".
Proof. repeat split; reflexivity. Qed.

End FormatDuration.

(** ** Shortening and cleaning text *)
Section TextHelpers.
Import JsString Text.
Local Arguments String.append !_ _ / : simpl nomatch.

Lemma substr0_prefix (n : nat) (text : string) :
  (exists rest, text = substr0 n text ++ rest) /\
  (String.length (substr0 n text) <= n)%nat.
Proof.
  revert text. induction n as [|n IH]; intros text.
  - split; [exists text; now destruct text | destruct text; simpl; lia].
  - destruct text as [|c r]; simpl.
    + split; [exists ""; reflexivity | lia].
    + destruct (IH r) as [[rest Hrest] Hlen].
      split; [exists rest; now rewrite <- Hrest | lia].
Qed.

Lemma dropLastWord_unfold (s : string) :
  dropLastWord s
  = if spacesThenWord s then ""
    else match s with
         | EmptyString => ""
         | String c r => String c (dropLastWord r)
         end.
Proof. destruct s; reflexivity. Qed.

Lemma dropLastWord_prefix (s : string) :
  (exists rest, s = dropLastWord s ++ rest) /\
  (String.length (dropLastWord s) <= String.length s)%nat.
Proof.
  induction s as [|c r IH]; rewrite dropLastWord_unfold.
  - simpl. split; [exists ""; reflexivity | lia].
  - destruct (spacesThenWord (String c r)).
    + split; [exists (String c r); reflexivity | simpl; lia].
    + destruct IH as [[rest Hrest] Hlen].
      split; [exists rest; simpl; now rewrite <- Hrest | simpl; lia].
Qed.

Lemma dropLastWord_empty (s : string) :
  dropLastWord s = "" -> s = "" \/ spacesThenWord s = true.
Proof.
  rewrite dropLastWord_unfold. destruct (spacesThenWord s); [now right|].
  destruct s; [now left | discriminate].
Qed.

(** What is kept never ends in white space: the cut is at the end of a
    word. *)
Lemma dropLastWord_ends_in_word (s : string) : endsWithSpace (dropLastWord s) = false.
Proof.
  induction s as [|c r IH]; rewrite dropLastWord_unfold; [reflexivity|].
  destruct (spacesThenWord (String c r)) eqn:Hcut; [reflexivity|].
  destruct (dropLastWord r) as [|k ks] eqn:Hkept.
  - simpl. simpl in Hcut.
    destruct (isSpace c); [|reflexivity]. simpl in Hcut.
    destruct (dropLastWord_empty r Hkept) as [-> | Hr]; [discriminate|].
    destruct r as [|c' r']; [discriminate|]. simpl in Hr, Hcut.
    destruct (isSpace c'); [|discriminate]. simpl in Hr. congruence.
  - exact IH.
Qed.

Lemma length_append (a b : string) :
  String.length (a ++ b) = (String.length a + String.length b)%nat.
Proof. induction a as [|c a IH]; simpl; [reflexivity | now rewrite IH]. Qed.

(** X2: [truncateText] returns short text as it is; longer text is cut
    to a beginning of at most [maxLength] characters that does not end in
    white space, followed by three dots. *)
Theorem truncateText_cut (text : string) (maxLength : nat) :
  ((String.length text <= maxLength)%nat -> truncateText text maxLength = text) /\
  ((maxLength < String.length text)%nat ->
     exists kept rest,
       truncateText text maxLength = kept ++ "..." /\
       text = kept ++ rest /\
       (String.length kept <= maxLength)%nat /\
       endsWithSpace kept = false /\
       (String.length (truncateText text maxLength) <= maxLength + 3)%nat).
Proof.
  unfold truncateText. split; intros Hlen.
  - apply Nat.leb_le in Hlen. rewrite Hlen. now rewrite orb_true_r.
  - assert (truthy text = true) as -> by (destruct text; [simpl in Hlen; lia | reflexivity]).
    assert ((String.length text <=? maxLength)%nat = false) as -> by (apply Nat.leb_gt; lia).
    cbn [negb orb].
    destruct (substr0_prefix maxLength text) as [[rest1 Hrest1] Hlen1].
    destruct (dropLastWord_prefix (substr0 maxLength text)) as [[rest2 Hrest2] Hlen2].
    exists (dropLastWord (substr0 maxLength text)), (rest2 ++ rest1).
    repeat split.
    + rewrite <- append_assoc, <- Hrest2. exact Hrest1.
    + lia.
    + apply dropLastWord_ends_in_word.
    + rewrite length_append. simpl. lia.
Qed.

Lemma truncateText_cut_witness :
  ((String.length "hello" <= 13)%nat /\ truncateText "hello" 13 = "hello") /\
  ((13 < String.length "hello brave new world")%nat /\
   exists kept rest,
     truncateText "hello brave new world" 13 = kept ++ "..." /\
     "hello brave new world" = kept ++ rest /\
     (String.length kept <= 13)%nat /\
     endsWithSpace kept = false /\
     (String.length (truncateText "hello brave new world" 13) <= 13 + 3)%nat).
Proof.
  split.
  - split; [simpl; lia|].
    apply (proj1 (truncateText_cut "hello" 13)). simpl. lia.
  - split; [simpl; lia|].
    apply (proj2 (truncateText_cut "hello brave new world" 13)). simpl. lia.
Defined.

(** The cut falls between words. *)
Example truncateText_samples :
  truncateText "hello brave new world" 13 = "hello brave..." /\
  truncateText "hello brave new world" 12 = "hello brave..." /\
  truncateText "hello brave new world" 11 = "hello..." /\
  truncateText "abcdefghij" 4 = "abcd..." /\
  truncateText "" 4 = "".
Proof. repeat split; reflexivity. Qed.

Lemma removeAngles_clean (s : string) :
  contains "<" (removeAngles s) = false /\ contains ">" (removeAngles s) = false.
Proof.
  induction s as [|c r [IH1 IH2]]; simpl; [split; reflexivity|].
  destruct (Ascii.eqb c "<") eqn:E1; [split; assumption|].
  destruct (Ascii.eqb c ">") eqn:E2; [split; assumption|].
  simpl. now rewrite E1, E2.
Qed.

Lemma removeAngles_id (s : string) :
  contains "<" s = false -> contains ">" s = false -> removeAngles s = s.
Proof.
  induction s as [|c r IH]; simpl; [reflexivity|].
  intros H1 H2. apply orb_false_iff in H1 as [E1 H1], H2 as [E2 H2].
  rewrite E1, E2. simpl. now rewrite IH.
Qed.

Lemma contains_trimStart (c : ascii) (s : string) :
  contains c s = false -> contains c (trimStart s) = false.
Proof.
  induction s as [|a r IH]; simpl; [reflexivity|].
  intros H. destruct (isSpace a); [|exact H].
  apply orb_false_iff in H as [_ H]. now apply IH.
Qed.

Lemma contains_trimEnd (c : ascii) (s : string) :
  contains c s = false -> contains c (trimEnd s) = false.
Proof.
  induction s as [|a r IH]; simpl; [reflexivity|].
  intros H. apply orb_false_iff in H as [Ha H]. specialize (IH H).
  destruct (trimEnd r) as [|b r'].
  - destruct (isSpace a); [reflexivity | simpl; now rewrite Ha].
  - simpl. simpl in IH. now rewrite Ha, IH.
Qed.

(** X3: what [sanitizeInput] returns holds neither [<] nor [>]; text
    that holds none to begin with is only trimmed. *)
Theorem sanitizeInput_no_angles (input : string) :
  contains "<" (sanitizeInput input) = false /\
  contains ">" (sanitizeInput input) = false /\
  (contains "<" input = false -> contains ">" input = false ->
   sanitizeInput input = trim input).
Proof.
  unfold sanitizeInput. destruct (truthy input) eqn:Ht; cbn [negb].
  - destruct (removeAngles_clean (trim input)) as [H1 H2].
    repeat split; try assumption.
    intros C1 C2. apply removeAngles_id; unfold trim.
    + now apply contains_trimEnd, contains_trimStart.
    + now apply contains_trimEnd, contains_trimStart.
  - apply truthy_false_iff in Ht. subst input. repeat split.
Qed.

Lemma sanitizeInput_no_angles_witness :
  contains "<" "  news hour " = false /\ contains ">" "  news hour " = false /\
  sanitizeInput "  news hour " = "news hour" /\
  sanitizeInput " <b>news</b> " = "bnews/b".
Proof.
  split; [reflexivity|]. split; [reflexivity|]. split; [|reflexivity].
  exact (proj2 (proj2 (sanitizeInput_no_angles "  news hour ")) eq_refl eq_refl).
Defined.

End TextHelpers.

(** ** More on the cache *)
Section CacheMore.
Import Utils Catalog.



(** X4: a cache read touches no key but its own, and at most deletes
    that one; a value is only returned when it is stored under the key
    with an age of at most [maxAge], and then nothing changes at all; a
    key that was never set reads as absent. *)
Theorem getCachedData_touches_one_key (key : string) (maxAge : Z) (w : World) :
  let r := getCachedData key maxAge w in
  (forall k, k <> key -> localStorage (snd r) !! k = localStorage w !! k) /\
  (snd r = w \/ snd r = withStorage (delete key) w) /\
  (forall v, fst r = Some v ->
     snd r = w /\
     exists timestamp, localStorage w !! key = Some (SCache v timestamp) /\
                       clock w - timestamp <= maxAge) /\
  (localStorage w !! key = None -> r = (None, w)).
Proof.
  unfold getCachedData.
  destruct (localStorage w !! key) as [data|] eqn:Hk; cbn.
  2:{ repeat split; try (now left); intros; discriminate. }
  destruct (timestampOf data) as [t|] eqn:Ht; cbn.
  2:{ repeat split; try (now left); intros; discriminate. }
  destruct (Z.ltb_spec maxAge (clock w - t)) as [Hold | Hfresh]; cbn.
  - repeat split; try discriminate.
    + intros k Hne. now apply lookup_delete_ne.
    + now right.
  - split; [intros; reflexivity|]. split; [now left|]. split; [|discriminate].
    intros v Hv. split; [reflexivity|]. exists t.
    destruct data; cbn in *; try discriminate.
    injection Hv as ->. injection Ht as ->. split; [reflexivity | lia].
Qed.

Lemma getCachedData_touches_one_key_witness :
  let w := AudioPlayer.freshWorld Fixtures.savedStorage (30 * Fixtures.HOUR_MS) in
  "playbackPosition" <> "currentEpisode" /\
  localStorage (snd (getCachedData "currentEpisode" 1000 w)) !! "playbackPosition"
    = localStorage w !! "playbackPosition".
Proof.
  intros w. split; [discriminate|].
  apply (proj1 (getCachedData_touches_one_key "currentEpisode" 1000 w)). discriminate.
Defined.



Lemma lookup_clear (keys : list string) (m : gmap string Stored) (k : string) :
  foldr (fun key ls => if isCatalogKey key then delete key ls else ls) m keys !! k
  = if isCatalogKey k && bool_decide (k ∈ keys) then None else m !! k.
Proof.
  induction keys as [|a keys IH]; cbn [foldr].
  - now rewrite andb_false_r.
  - destruct (decide (k = a)) as [-> | Hne].
    + rewrite bool_decide_eq_true_2 by left. rewrite andb_true_r.
      destruct (isCatalogKey a) eqn:Ha.
      * apply lookup_delete_eq.
      * exact IH.
    + assert (bool_decide (k ∈ a :: keys) = bool_decide (k ∈ keys)) as ->.
      { apply bool_decide_ext. rewrite elem_of_cons. tauto. }
      destruct (isCatalogKey a); [rewrite lookup_delete_ne by congruence|]; exact IH.
Qed.

Lemma popular_is_not_catalog (rest : string) : isCatalogKey ("popular_" ++ rest) = false.
Proof. reflexivity. Qed.

Lemma clearCache_fixed (w : World) :
  (forall k, isCatalogKey k = true -> localStorage w !! k = None) -> clearCache w = w.
Proof.
  intros Hnone. destruct w as [ls c ts n cl lr an au pl u].
  unfold clearCache, withStorage. cbn. f_equal.
  apply map_eq. intros k. rewrite lookup_clear.
  destruct (isCatalogKey k) eqn:Hk; [|reflexivity]. cbn.
  destruct (bool_decide _); [|reflexivity].
  symmetry. now apply (Hnone k).
Qed.

(** X6: [clearCache] removes every item whose key begins with
    [search_], [podcast_] or [episodes_] and leaves all other items as
    they are, among them the player's [currentEpisode] and
    [playbackPosition] and the [popular_] listings; nothing else
    changes. *)
Theorem clearCache_removes_catalog_only (w : World) :
  (forall k, localStorage (clearCache w) !! k
             = if isCatalogKey k then None else localStorage w !! k) /\
  localStorage (clearCache w) !! "currentEpisode" = localStorage w !! "currentEpisode" /\
  localStorage (clearCache w) !! "playbackPosition" = localStorage w !! "playbackPosition" /\
  (forall rest, localStorage (clearCache w) !! ("popular_" ++ rest)
                = localStorage w !! ("popular_" ++ rest)) /\
  clearCache (clearCache w) = clearCache w /\
  (audio (clearCache w), player (clearCache w), ui (clearCache w), timers (clearCache w))
  = (audio w, player w, ui w, timers w).
Proof.
  assert (forall k, localStorage (clearCache w) !! k
                    = if isCatalogKey k then None else localStorage w !! k) as Hlookup.
  { intros k. unfold clearCache. cbn. rewrite lookup_clear.
    destruct (isCatalogKey k); [|reflexivity]. cbn.
    destruct (bool_decide_reflect (k ∈ storageKeys w)) as [Hin | Hout]; [reflexivity|].
    destruct (localStorage w !! k) as [v|] eqn:Hk; [|reflexivity].
    exfalso. apply Hout. unfold storageKeys.
    apply list_elem_of_fmap. exists (k, v). split; [reflexivity|].
    now apply elem_of_map_to_list. }
  repeat split; try exact Hlookup.
  - apply (Hlookup "currentEpisode").
  - apply (Hlookup "playbackPosition").
  - intros rest. rewrite Hlookup. now rewrite popular_is_not_catalog.
  - apply clearCache_fixed. intros k Hk. now rewrite Hlookup, Hk.
Qed.

(** After a clearing, a search result and an episode list are gone
    while the player's records and a popular listing are still there. *)
Example clearCache_sample :
  let storage : gmap string Stored :=
    <["search_news_50" := SCache (VPodcasts []) 0]>
      (<["episodes_aHR0cA==" := SCache (VEpisodes []) 0]>
         (<["popular__20" := SCache (VPodcasts []) 0]> Fixtures.savedStorage)) in
  storageKeys (clearCache (AudioPlayer.freshWorld storage 1))
  ≡ₚ ["currentEpisode"; "playbackPosition"; "popular__20"].
Proof.
  vm_compute.
  repeat first [ apply Permutation_refl | apply perm_skip
               | (etransitivity; [apply perm_swap|]) ].
Qed.

End CacheMore.

(** ** More on fetching a feed *)
Section EpisodesMore.
Import Utils PodcastAPI.
Variable B : Browser.

Local Abbreviation keyOf url := ("episodes_" ++ btoa B url).

Lemma getPodcastEpisodes_invalid (feedUrl : string) (w : World) :
  feedUrl = "" \/ urlConstructs B feedUrl = false ->
  getPodcastEpisodes B feedUrl w = (Err "Valid feed URL is required", w).
Proof.
  unfold getPodcastEpisodes, isValidUrl.
  intros [-> | ->]; [reflexivity|]. now rewrite orb_true_r.
Qed.

(** What a call with a usable URL does, case by case. *)
Lemma getPodcastEpisodes_valid (feedUrl : string) (w : World) :
  feedUrl <> "" -> urlConstructs B feedUrl = true ->
  getPodcastEpisodes B feedUrl w
  = match getCachedData (keyOf feedUrl) 1800000 w with
    | (Some cached, w1) => (Ok cached, w1)
    | (None, w1) =>
        match fetchAndParse B feedUrl (keyOf feedUrl) w1 with
        | (Ok episodes, w2) => (Ok (VEpisodes episodes), w2)
        | (Err message, w2) =>
            if JsString.includes "CORS" message || JsString.includes "blocked" message
            then (Err corsMessage, w2) else (Err genericMessage, w2)
        end
    end.
Proof.
  intros Hne Hurl. unfold getPodcastEpisodes, isValidUrl. rewrite Hurl.
  destruct feedUrl; [congruence | reflexivity].
Qed.



(** X8: the URL check comes first: the call fails with "Valid feed URL
    is required" exactly when the URL is empty or is not a URL, and then
    neither the cache nor the network is consulted. *)
Theorem getPodcastEpisodes_requires_url (feedUrl : string) (w : World) :
  (fst (getPodcastEpisodes B feedUrl w) = Err "Valid feed URL is required"
   <-> feedUrl = "" \/ urlConstructs B feedUrl = false) /\
  (feedUrl = "" \/ urlConstructs B feedUrl = false ->
   snd (getPodcastEpisodes B feedUrl w) = w).
Proof.
  split; [split|].
  - intros H.
    destruct feedUrl as [|c r] eqn:Hf; [now left|]. rewrite <- Hf in *.
    destruct (urlConstructs B feedUrl) eqn:Hu; [|now right]. exfalso.
    rewrite getPodcastEpisodes_valid in H; [|subst; discriminate | exact Hu].
    destruct (getCachedData _ _ w) as [[cached|] w1]; [discriminate|].
    destruct (fetchAndParse B feedUrl _ w1) as [[episodes | m] w2]; [discriminate|].
    destruct (_ || _); cbn in H; discriminate.
  - intros H. now rewrite getPodcastEpisodes_invalid.
  - intros H. now rewrite getPodcastEpisodes_invalid.
Qed.

End EpisodesMore.


Lemma getPodcastEpisodes_requires_url_witness :
  urlConstructs Fixtures.plainBrowser "not a url" = false /\
  PodcastAPI.getPodcastEpisodes Fixtures.plainBrowser "not a url" Fixtures.emptyWorld
  = (Err "Valid feed URL is required", Fixtures.emptyWorld).
Proof.
  split; [reflexivity|].
  pose proof (getPodcastEpisodes_requires_url Fixtures.plainBrowser "not a url"
                Fixtures.emptyWorld) as [[_ Herr] Hw].
  specialize (Herr (or_intror eq_refl)). specialize (Hw (or_intror eq_refl)).
  destruct (PodcastAPI.getPodcastEpisodes _ _ _) as [r w']. cbn in *. congruence.
Defined.



(** ** Classification of fetch failures *)
Section Classification.
Import Utils PodcastAPI Text.
Variable B : Browser.
Local Arguments String.append !_ _ / : simpl nomatch.

Lemma contains_app (c : ascii) (a b : string) :
  contains c (a ++ b) = contains c a || contains c b.
Proof.
  induction a as [|x a IH]; simpl; [reflexivity|]. now rewrite IH, orb_assoc.
Qed.

Lemma includes_needs_first (c : ascii) (p s : string) :
  contains c s = false -> JsString.includes (String c p) s = false.
Proof.
  induction s as [|x s IH]; simpl; [reflexivity|].
  intros H. apply orb_false_iff in H as [Hx Hs].
  rewrite Ascii.eqb_sym in Hx. rewrite Hx. simpl. now apply IH.
Qed.

Lemma contains_uint (c : ascii) (d : Decimal.uint) :
  JsString.isDigit c = false -> contains c (NilEmpty.string_of_uint d) = false.
Proof.
  intros Hc.
  induction d as [|d IH|d IH|d IH|d IH|d IH|d IH|d IH|d IH|d IH|d IH]; simpl;
    [reflexivity | ..]; rewrite IH, orb_false_r;
    destruct c as [[] [] [] [] [] [] [] []]; try reflexivity; discriminate Hc.
Qed.

(** The status printed into the error message holds only digits and a
    sign. *)
Lemma contains_showStatus (c : ascii) (status : Z) :
  JsString.isDigit c = false -> c <> "-"%char ->
  contains c (showStatus status) = false.
Proof.
  intros Hc Hm. unfold showStatus, NilZero.string_of_int.
  assert (forall d, contains c (NilZero.string_of_uint d) = false) as Hu.
  { intros d. unfold NilZero.string_of_uint.
    destruct d; try (now apply contains_uint).
    simpl. rewrite orb_false_r.
    destruct c as [[] [] [] [] [] [] [] []]; try reflexivity; discriminate Hc. }
  destruct (Z.to_int status) as [d | d]; [apply Hu|].
  change (contains c (String "-" (NilZero.string_of_uint d)))
    with (Ascii.eqb "-" c || contains c (NilZero.string_of_uint d)).
  rewrite Hu, orb_false_r. apply Ascii.eqb_neq. congruence.
Qed.

(** X10: with a usable URL and nothing cached, a rejected fetch whose
    message mentions CORS or "blocked" is reported with the CORS
    message and any other rejected fetch with the generic message; a
    response that is not ok is reported with the generic message,
    whatever its status. *)
Theorem getPodcastEpisodes_classifies (feedUrl : string) (w : World) :
  feedUrl <> "" -> urlConstructs B feedUrl = true ->
  fst (getCachedData ("episodes_" ++ btoa B feedUrl) 1800000 w) = None ->
  (forall m, fetch B feedUrl = FetchRejected m ->
     fst (getPodcastEpisodes B feedUrl w)
     = Err (if JsString.includes "CORS" m || JsString.includes "blocked" m
            then corsMessage else genericMessage)) /\
  (forall status body, fetch B feedUrl = FetchResponse false status body ->
     fst (getPodcastEpisodes B feedUrl w) = Err genericMessage).
Proof.
  intros Hne Hu Hmiss.
  rewrite (getPodcastEpisodes_valid B feedUrl w Hne Hu).
  destruct (getCachedData _ _ w) as [cached w0]. cbn in Hmiss. subst cached.
  unfold fetchAndParse. split.
  - intros m ->. now destruct (_ || _).
  - intros status body ->. cbn [negb].
    assert (JsString.includes "CORS" ("HTTP error! status: " ++ showStatus status) = false)
      as ->.
    { apply includes_needs_first. rewrite contains_app.
      rewrite contains_showStatus by (reflexivity || discriminate). reflexivity. }
    assert (JsString.includes "blocked" ("HTTP error! status: " ++ showStatus status) = false)
      as ->.
    { apply includes_needs_first. rewrite contains_app.
      rewrite contains_showStatus by (reflexivity || discriminate). reflexivity. }
    reflexivity.
Qed.

End Classification.

Lemma getPodcastEpisodes_classifies_witness :
  let B := {| parseFromString := parseFromString Fixtures.plainBrowser;
              htmlTextContent := htmlTextContent Fixtures.plainBrowser;
              dateParse := dateParse Fixtures.plainBrowser;
              urlConstructs := urlConstructs Fixtures.plainBrowser;
              btoa := btoa Fixtures.plainBrowser;
              fetch := fun _ => FetchRejected "Request blocked by the client";
              readyStateAt := readyStateAt Fixtures.plainBrowser;
              playRejection := playRejection Fixtures.plainBrowser;
              hasMediaSession := true |} in
  fetch B Fixtures.feedUrl = FetchRejected "Request blocked by the client" /\
  fst (PodcastAPI.getPodcastEpisodes B Fixtures.feedUrl Fixtures.emptyWorld)
    = Err PodcastAPI.corsMessage.
Proof.
  intros B. split; [reflexivity|].
  exact (proj1 (getPodcastEpisodes_classifies B Fixtures.feedUrl Fixtures.emptyWorld
                  ltac:(discriminate) eq_refl eq_refl) _ eq_refl).
Defined.

(** ** More on parsing a feed *)
Section ParseMore.
Import PodcastAPI.
Variable B : Browser.





Lemma kept_iff (item : Dom.Node) :
  Vocabulary.kept item = true <-> is_Some (parseEpisodeItem B item).
Proof.
  unfold Vocabulary.kept, parseEpisodeItem.
  destruct (JsString.truthy (getTextContent item "title")); cbn.
  2:{ split; [discriminate | intros [x Hx]; discriminate]. }
  destruct (Dom.querySelector (Dom.tag "enclosure") item) as [enc|]; cbn.
  2:{ split; [discriminate | intros [x Hx]; discriminate]. }
  destruct (JsString.truthy (attr "url" enc)); cbn.
  - split; [intros _; eexists; reflexivity | reflexivity].
  - split; [discriminate | intros [x Hx]; discriminate].
Qed.

Lemma collectEpisodes_length (items : list Dom.Node) :
  length (collectEpisodes B items) = length (List.filter Vocabulary.kept items).
Proof.
  induction items as [|item items IH]; [reflexivity|].
  unfold collectEpisodes in *. cbn.
  pose proof (kept_iff item) as Hk.
  destruct (Vocabulary.kept item).
  - destruct (proj1 Hk eq_refl) as [e He]. rewrite He. cbn. now rewrite IH.
  - destruct (parseEpisodeItem B item) as [e|] eqn:He; [|exact IH].
    assert (false = true) by (apply Hk; eauto). discriminate.
Qed.

(** X12: an item is dropped exactly when it has no title text or no
    audio locator, and the returned list has one episode for each of the
    other items. *)
Theorem items_kept_or_dropped (doc : Dom.Document) :
  (forall item, parseEpisodeItem B item = None <->
                getTextContent item "title" = "" \/ Spec.lacksAudioLocator item) /\
  length (parseEpisodesFromXML B doc)
  = length (List.filter Vocabulary.kept (Spec.itemsOf doc)).
Proof.
  split.
  - intros item. split.
    + intros Hnone. unfold parseEpisodeItem in Hnone. unfold Spec.lacksAudioLocator.
      destruct (JsString.truthy (getTextContent item "title")) eqn:Ht.
      2:{ left. now apply truthy_false_iff. }
      right. cbn in Hnone.
      destruct (Dom.querySelector (Dom.tag "enclosure") item) as [enc|]; [|exact I].
      destruct (JsString.truthy (attr "url" enc)) eqn:Hu; [discriminate|].
      now apply truthy_false_iff.
    + intros [Ht | Hl]; [|now apply parseEpisodeItem_lacking].
      unfold parseEpisodeItem. now rewrite Ht.
  - unfold parseEpisodesFromXML.
    rewrite (Permutation_length (sort_Permutation _ _)).
    apply collectEpisodes_length.
Qed.

Lemma StronglySorted_weaken {A : Type} (R S : A -> A -> Prop) (l : list A) :
  (forall a b, R a b -> S a b) -> StronglySorted R l -> StronglySorted S l.
Proof.
  intros HRS. induction 1 as [|x r Hr IH Hx]; constructor; [exact IH|].
  eapply Forall_impl; [exact Hx | exact (HRS x)].
Qed.

(** A list that the comparison function already accepts, element before
    element, is left as it is: the sort moves nothing without need. *)
Lemma sort_fixed {A : Type} (cmp : A -> A -> option Z) (l : list A) :
  StronglySorted (fun a b => JsArray.comesAfter cmp a b = false) l ->
  JsArray.sort cmp l = l.
Proof.
  induction 1 as [|x r Hr IH Hx]; [reflexivity|].
  rewrite sort_cons, IH. destruct r as [|y r']; [reflexivity|].
  cbn. apply Forall_cons in Hx as [Hxy _]. now rewrite Hxy.
Qed.

(** X13: the sort is stable where it matters to a listener: a feed
    whose episodes are already newest first is returned in feed order
    (episodes of the same date keep their order), and so is a feed none of
    whose dates can be parsed. *)
Theorem feed_order_is_kept (doc : Dom.Document) :
  (StronglySorted (Spec.newestFirst B) (collectEpisodes B (Spec.itemsOf doc)) ->
   parseEpisodesFromXML B doc = collectEpisodes B (Spec.itemsOf doc)) /\
  (Forall (fun e => Spec.pubTime B e = None) (collectEpisodes B (Spec.itemsOf doc)) ->
   parseEpisodesFromXML B doc = collectEpisodes B (Spec.itemsOf doc)).
Proof.
  unfold parseEpisodesFromXML. fold (Spec.itemsOf doc).
  split.
  - intros Hsorted. apply sort_fixed.
    eapply StronglySorted_weaken; [|exact Hsorted].
    intros a b (ta & tb & Ha & Hb & Hle).
    rewrite (comesAfter_dated B a b ta tb Ha Hb). lia.
  - intros Hnone. apply sort_fixed.
    induction (collectEpisodes B (Spec.itemsOf doc)) as [|x r IH]; [constructor|].
    apply Forall_cons in Hnone as [Hx Hr].
    constructor; [now apply IH|].
    apply Forall_forall. intros y _.
    unfold JsArray.comesAfter, byPubDateDesc. unfold Spec.pubTime in Hx.
    destruct (dateParse B (Episode.pubDate y)); cbn; [|reflexivity].
    now rewrite Hx.
Qed.

End ParseMore.


Lemma feed_order_is_kept_witness :
  (StronglySorted (Spec.newestFirst Fixtures.plainBrowser)
     (PodcastAPI.collectEpisodes Fixtures.plainBrowser
        (Spec.itemsOf Vocabulary.newestFirstFeed)) /\
   map Episode.title
       (PodcastAPI.parseEpisodesFromXML Fixtures.plainBrowser Vocabulary.newestFirstFeed)
   = ["march"; "february-b"; "february-a"; "january"]) /\
  (Forall (fun e => Spec.pubTime Fixtures.plainBrowser e = None)
     (PodcastAPI.collectEpisodes Fixtures.plainBrowser
        (Spec.itemsOf Vocabulary.undatedFeed)) /\
   map Episode.title
       (PodcastAPI.parseEpisodesFromXML Fixtures.plainBrowser Vocabulary.undatedFeed)
   = ["first"; "second"; "third"]).
Proof.
  split.
  - assert (StronglySorted (Spec.newestFirst Fixtures.plainBrowser)
              (PodcastAPI.collectEpisodes Fixtures.plainBrowser
                 (Spec.itemsOf Vocabulary.newestFirstFeed))) as Hsorted.
    { repeat (apply SSorted_cons || apply SSorted_nil || apply Forall_cons_2
              || apply Forall_nil_2);
        (eexists; eexists; split; [reflexivity|]; split; [reflexivity|];
         vm_compute; congruence). }
    split; [exact Hsorted|].
    rewrite (proj1 (feed_order_is_kept Fixtures.plainBrowser Vocabulary.newestFirstFeed)
               Hsorted).
    reflexivity.
  - assert (Forall (fun e => Spec.pubTime Fixtures.plainBrowser e = None)
              (PodcastAPI.collectEpisodes Fixtures.plainBrowser
                 (Spec.itemsOf Vocabulary.undatedFeed))) as Hnone.
    { repeat (apply Forall_cons_2 || apply Forall_nil_2); reflexivity. }
    split; [exact Hnone|].
    rewrite (proj2 (feed_order_is_kept Fixtures.plainBrowser Vocabulary.undatedFeed)
               Hnone).
    reflexivity.
Defined.

(** ** More on the player *)
Section PlayerMore.
Import AudioPlayer.
Variable B : Browser.

Lemma truthyNumber_positive (d : Q) : (0 < d)%Q -> truthyNumber (Num d) = true.
Proof.
  intros Hd. cbn. destruct (Qeq_bool d 0) eqn:E; [|reflexivity].
  apply Qeq_bool_eq in E. rewrite E in Hd. exfalso. exact (Qlt_irrefl 0 Hd).
Qed.

(** X14: with an episode loaded and a known duration, [seek] moves to
    the given percentage of the duration, which for a percentage from 0
    to 100 lies between the start and the end; with no episode, or with
    a duration that is unknown or 0, [seek] does nothing. *)
Theorem seek_within_duration (percentage : Q) (w : World) :
  (forall d, is_Some (currentEpisode (player w)) ->
             duration (audio w) = Num d -> (0 < d)%Q ->
             (0 <= percentage)%Q -> (percentage <= 100)%Q ->
             currentTime (audio (seek percentage w)) = (percentage / 100 * d)%Q /\
             (0 <= currentTime (audio (seek percentage w)))%Q /\
             (currentTime (audio (seek percentage w)) <= d)%Q) /\
  (currentEpisode (player w) = None \/ truthyNumber (duration (audio w)) = false ->
   seek percentage w = w).
Proof.
  split.
  - intros d [e He] Hd Hpos Hlo Hhi. unfold seek.
    rewrite He, Hd, (truthyNumber_positive d Hpos). cbn.
    split; [reflexivity|].
    assert (0 <= percentage / 100)%Q as H0.
    { apply Qle_shift_div_l; [reflexivity|]. now rewrite Qmult_0_l. }
    assert (percentage / 100 <= 1)%Q as H1.
    { apply Qle_shift_div_r; [reflexivity|]. now rewrite Qmult_1_l. }
    split.
    + apply Qmult_le_0_compat; [exact H0 | now apply Qlt_le_weak].
    + rewrite <- (Qmult_1_l d) at 2.
      apply Qmult_le_compat_r; [exact H1 | now apply Qlt_le_weak].
  - unfold seek. intros [-> | ->]; [reflexivity|].
    now destruct (currentEpisode (player w)).
Qed.






End PlayerMore.

Lemma seek_within_duration_witness :
  let B := Fixtures.plainBrowser in
  let w := AudioPlayer.dispatch B (AudioPlayer.EvLoadedMetadata (Num 200))
             (snd (AudioPlayer.loadEpisode B (Some Fixtures.someEpisode) "Show" false
                     Fixtures.emptyWorld)) in
  duration (audio w) = Num 200 /\
  currentTime (audio (AudioPlayer.seek 25 w)) = (25 / 100 * 200)%Q /\
  (0 <= currentTime (audio (AudioPlayer.seek 25 w)))%Q /\
  (currentTime (audio (AudioPlayer.seek 25 w)) <= 200)%Q.
Proof.
  intros B w. split; [reflexivity|].
  apply (proj1 (seek_within_duration 25 w) 200%Q).
  - exists Fixtures.someEpisode. reflexivity.
  - reflexivity.
  - reflexivity.
  - discriminate.
  - discriminate.
Defined.






(** ** What starts playback, and what does not *)
Section Silence.
Import AudioPlayer Vocabulary.
Variable B : Browser.

Lemma idle_extend (w w' : World) (kept extra : list Timer) :
  idle w ->
  (forall x, In x kept -> In x (timers w)) ->
  timers w' = (kept ++ extra)%list ->
  Forall (fun t => task t <> TryPlay) extra ->
  canplayListeners w' = canplayListeners w ->
  idle w'.
Proof.
  intros [Ht Hl] Hkept Htimers Hextra Hlisteners. split; [|congruence].
  rewrite Htimers. apply Forall_app. split; [|exact Hextra].
  apply List.Forall_forall. intros x Hx.
  rewrite List.Forall_forall in Ht. apply Ht, Hkept, Hx.
Qed.

Ltac announce_timers :=
  repeat (apply Forall_cons_2; [discriminate|]); apply Forall_nil_2.

(** A media event neither requests playback nor arms a poll while no
    auto-play attempt is under way. *)
Lemma dispatch_idle (ev : MediaEvent) (w : World) :
  idle w ->
  idle (dispatch B ev w) /\ playCalls (audio (dispatch B ev w)) = playCalls (audio w).
Proof.
  intros Hidle. pose proof Hidle as [_ Hl].
  destruct ev as [|d|t| |code| | | | |]; cbn [dispatch];
    try (rewrite Hl; cbn [foldl]; split; [exact Hidle | reflexivity]);
    try (split; [|reflexivity];
         first [ apply (idle_extend w _ (timers w) []); cbn;
                 [exact Hidle | tauto | now rewrite app_nil_r | constructor | reflexivity]
               | eapply (idle_extend w _ (timers w)); cbn;
                 [exact Hidle | tauto | rewrite <- ?app_assoc; reflexivity
                 | announce_timers | reflexivity] ]).
  unfold onTimeUpdate, savePlaybackPosition. cbn.
  destruct (truthyNumber (duration (audio w))); cbn; [|split; [exact Hidle | reflexivity]].
  destruct (currentEpisode (player w)); cbn; [|split; [exact Hidle | reflexivity]].
  destruct (Qle_bool t 0); cbn; (split; [exact Hidle | reflexivity]).
Qed.

(** Nor does a timer that fires. *)
Lemma fire_idle (w : World) :
  idle w ->
  idle (turn B Fire w) /\ playCalls (audio (turn B Fire w)) = playCalls (audio w).
Proof.
  intros Hidle. pose proof Hidle as [Ht Hl].
  unfold turn, fireNext.
  destruct (popEarliest (timers w)) as [[t rest]|] eqn:Hpop; cbn [default];
    [|split; [exact Hidle | reflexivity]].
  pose proof (popEarliest_In _ _ _ Hpop) as Hin.
  assert (forall x, In x rest -> In x (timers w)) as Hrest.
  { intros x Hx. apply Hin. now right. }
  assert (task t <> TryPlay) as Hnot.
  { rewrite List.Forall_forall in Ht. apply Ht, Hin. now left. }
  destruct (task t) as [|listener|region message|region]; [congruence|..];
    cbn [runTask].
  - unfold loadingTimeout, readyState. cbn.
    match goal with |- context [if ?c then _ else _] => destruct c end;
      cbn; (split; [|reflexivity]).
    + eapply (idle_extend w _ rest); cbn;
        [exact Hidle | exact Hrest | rewrite <- ?app_assoc; reflexivity
        | announce_timers | now rewrite Hl].
    + apply (idle_extend w _ rest []); cbn;
        [exact Hidle | exact Hrest | now rewrite app_nil_r | constructor | now rewrite Hl].
  - split; [|reflexivity].
    apply (idle_extend w _ rest []); cbn;
      [exact Hidle | exact Hrest | now rewrite app_nil_r | constructor | reflexivity].
  - split; [|reflexivity].
    apply (idle_extend w _ rest []); cbn;
      [exact Hidle | exact Hrest | now rewrite app_nil_r | constructor | reflexivity].
Qed.

Lemma turns_idle (ts : list Turn) (w : World) :
  idle w ->
  idle (turns B ts w) /\ playCalls (audio (turns B ts w)) = playCalls (audio w).
Proof.
  revert w. induction ts as [|t ts IH]; intros w Hidle; [split; [exact Hidle | reflexivity]|].
  unfold turns. cbn [foldl]. fold (turns B ts (turn B t w)).
  assert (idle (turn B t w) /\ playCalls (audio (turn B t w)) = playCalls (audio w))
    as [Hi Hp].
  { destruct t as [|ev]; [now apply fire_idle | now apply dispatch_idle]. }
  destruct (IH _ Hi) as [Hi' Hp']. split; [exact Hi' | congruence].
Qed.

Lemma loadEpisode_manual_idle (episode : option Episode.t) (podcastName : string)
      (w : World) :
  idle w ->
  idle (snd (loadEpisode B episode podcastName false w)) /\
  playCalls (audio (snd (loadEpisode B episode podcastName false w))) = playCalls (audio w).
Proof.
  intros Hidle. unfold loadEpisode.
  destruct episode as [e|]; [|split; [exact Hidle | reflexivity]].
  destruct (JsString.truthy (Episode.audioUrl e)); cbn [negb snd];
    [|split; [exact Hidle | reflexivity]].
  unfold updatePlayerUI, updateMediaSession, saveCurrentEpisode.
  destruct (hasMediaSession B); cbn; (split; [|reflexivity]);
    (eapply (idle_extend w _ (timers w)); cbn;
     [exact Hidle | tauto | rewrite <- ?app_assoc; reflexivity
     | announce_timers | reflexivity]).
Qed.

(** X18: an episode loaded without [autoPlay] never starts by itself:
    when no auto-play attempt is under way, no timer that fires and no
    event of the media element after the load makes the player request
    playback. *)
Theorem manual_load_never_starts (episode : option Episode.t) (podcastName : string)
        (ts : list Turn) (w : World) :
  idle w ->
  playCalls (audio (turns B ts (snd (loadEpisode B episode podcastName false w))))
  = playCalls (audio w).
Proof.
  intros Hidle.
  destruct (loadEpisode_manual_idle episode podcastName w Hidle) as [Hi Hp].
  destruct (turns_idle ts _ Hi) as [_ Hp']. congruence.
Qed.

End Silence.

Lemma manual_load_never_starts_witness :
  let B := Fixtures.lateBrowser in
  let ts := [Vocabulary.Fire;
             Vocabulary.Media AudioPlayer.EvCanPlay;
             Vocabulary.Media (AudioPlayer.EvLoadedMetadata (Num 200));
             Vocabulary.Media AudioPlayer.EvCanPlayThrough;
             Vocabulary.Fire;
             Vocabulary.Media (AudioPlayer.EvTimeUpdate 1)] in
  Vocabulary.idle Fixtures.emptyWorld /\
  playCalls (audio (Vocabulary.turns B ts
                      (snd (AudioPlayer.loadEpisode B (Some Fixtures.someEpisode) "Show"
                              false Fixtures.emptyWorld)))) = 0%nat.
Proof.
  intros B ts.
  assert (Vocabulary.idle Fixtures.emptyWorld) as Hidle.
  { split; [constructor | reflexivity]. }
  split; [exact Hidle|].
  exact (manual_load_never_starts B (Some Fixtures.someEpisode) "Show" ts
           Fixtures.emptyWorld Hidle).
Defined.

(** ** Starting playback *)
Section Starting.
Import AudioPlayer Vocabulary.
Variable B : Browser.

Lemma errorMessageOf_not_empty (error : ErrorArg) : errorMessageOf error <> "".
Proof.
  destruct error as [[code|] | message]; cbn.
  - repeat match goal with |- context [if ?c then _ else _] => destruct c end;
      discriminate.
  - discriminate.
  - destruct message; cbn; discriminate.
Qed.

(** X19: when the media element refuses to play (as browsers do without
    a user gesture), the player does not stay in its loading state: the
    controls are enabled again, the play icon is shown, and two messages
    are announced, "Unable to play episode" and then the refusal's own
    message (never an empty one).  With no episode loaded [play] does
    nothing, and a refusal is the only way for [play] to announce
    anything. *)
Theorem refused_play_is_reported (w : World) :
  (forall e message,
     currentEpisode (player w) = Some e -> playRejection B (clock w) = Some message ->
     let w' := play B w in
     controlsDisabled (ui w') = false /\ spinner (ui w') = false /\
     playIconHidden (ui w') = false /\ ariaLabel (ui w') = "Play" /\
     isPlaying (player w') = false /\
     playCalls (audio w') = S (playCalls (audio w)) /\
     errorMessageOf (Thrown message) <> "" /\
     map task (timers w')
     = (map task (timers w) ++
        [AnnounceText (nextId w) "Unable to play episode";
         AnnounceRemove (nextId w);
         AnnounceText (S (nextId w)) (errorMessageOf (Thrown message));
         AnnounceRemove (S (nextId w))])%list) /\
  (currentEpisode (player w) = None -> play B w = w) /\
  (playRejection B (clock w) = None -> timers (play B w) = timers w).
Proof.
  unfold play. split; [|split].
  - intros e message -> Hrej. cbn [clock audioPlayRequested withAudio].
    cbn in Hrej |- *. rewrite Hrej. cbn.
    repeat split.
    + destruct message; discriminate.
    + rewrite !map_app. cbn. rewrite <- !app_assoc. reflexivity.
  - intros ->. reflexivity.
  - intros Hnone. destruct (currentEpisode (player w)); [|reflexivity].
    cbn in Hnone |- *. rewrite Hnone. reflexivity.
Qed.


Lemma play_frame (w : World) :
  canplayListeners (play B w) = canplayListeners w /\
  currentEpisode (player (play B w)) = currentEpisode (player w) /\
  playCalls (audio (play B w))
  = match currentEpisode (player w) with
    | Some _ => S (playCalls (audio w))
    | None => playCalls (audio w)
    end.
Proof.
  unfold play. destruct (currentEpisode (player w)) eqn:He; [|now rewrite He].
  cbn. destruct (playRejection B (clock w)); cbn; repeat split; exact He.
Qed.

Lemma filter_filter_listeners (a : nat) (ls L : list nat) :
  List.filter (fun l => negb (existsb (Nat.eqb l) ls))
              (List.filter (fun l => negb (Nat.eqb l a)) L)
  = List.filter (fun l => negb (existsb (Nat.eqb l) (a :: ls))) L.
Proof.
  induction L as [|x L IH]; cbn; [reflexivity|].
  destruct (Nat.eqb x a); cbn; [exact IH|].
  destruct (existsb (Nat.eqb x) ls); cbn; [exact IH | now rewrite IH].
Qed.

(** The [canplay] listeners run one after the other. *)
Lemma canplay_fold (ls : list nat) (w : World) :
  let w' := foldl (fun w l => onCanPlay B l w) w ls in
  canplayListeners w'
  = List.filter (fun l => negb (existsb (Nat.eqb l) ls)) (canplayListeners w) /\
  currentEpisode (player w') = currentEpisode (player w) /\
  playCalls (audio w')
  = match currentEpisode (player w) with
    | Some _ => (playCalls (audio w) + length ls)%nat
    | None => playCalls (audio w)
    end.
Proof.
  revert w. induction ls as [|a ls IH]; intros w; cbn [foldl].
  - cbn. repeat split.
    + induction (canplayListeners w) as [|x L IHL]; cbn; [reflexivity | now rewrite <- IHL].
    + destruct (currentEpisode (player w)); lia.
  - destruct (IH (onCanPlay B a w)) as (H1 & H2 & H3).
    unfold onCanPlay in *.
    destruct (play_frame (withListeners (List.filter (fun l => negb (Nat.eqb l a))) w))
      as (P1 & P2 & P3).
    cbn [canplayListeners withListeners player audio] in P1, P2, P3.
    rewrite H1, H2, H3, P1, P2, P3.
    repeat split.
    + apply filter_filter_listeners.
    + cbn. destruct (currentEpisode (player w)); cbn; lia.
Qed.

(** X21: the [canplay] notification works once: it requests playback
    for every auto-play attempt that is waiting for it and unregisters
    all of them, so that a second notification changes nothing. *)
Theorem canplay_is_one_shot (w : World) :
  let w' := dispatch B EvCanPlay w in
  canplayListeners w' = [] /\
  dispatch B EvCanPlay w' = w' /\
  (is_Some (currentEpisode (player w)) ->
   playCalls (audio w') = (playCalls (audio w) + length (canplayListeners w))%nat) /\
  (currentEpisode (player w) = None -> playCalls (audio w') = playCalls (audio w)).
Proof.
  cbn [dispatch].
  destruct (canplay_fold (canplayListeners w) w) as (H1 & H2 & H3).
  assert (canplayListeners
            (foldl (fun w l => onCanPlay B l w) w (canplayListeners w)) = []) as Hnil.
  { rewrite H1.
    assert (forall L M : list nat, (forall x, In x L -> In x M) ->
              List.filter (fun l => negb (existsb (Nat.eqb l) M)) L = []) as Hall.
    { intros L. induction L as [|x L IHL]; intros M HM; cbn; [reflexivity|].
      assert (existsb (Nat.eqb x) M = true) as ->.
      { apply existsb_exists. exists x. split; [apply HM; now left | apply Nat.eqb_refl]. }
      cbn. apply IHL. intros y Hy. apply HM. now right. }
    apply Hall. tauto. }
  repeat split.
  - exact Hnil.
  - now rewrite Hnil.
  - intros [e He]. now rewrite H3, He.
  - intros He. now rewrite H3, He.
Qed.

(** X22: an announcement made while nothing else is pending gets its
    text into the live region 100 ms later, and 3 seconds after it was
    made its node is gone again and no timer is left. *)
Theorem announcement_lifecycle (message : string) (w : World) :
  timers w = [] -> liveRegions w = [] ->
  let w1 := Utils.announceToScreenReader message w in
  let w2 := turns B [Fire] w1 in
  let w3 := turns B [Fire; Fire] w1 in
  liveRegions w1 = [(nextId w, "")] /\
  (clock w2 = clock w + 100 /\
   liveRegions w2 = [(nextId w, message)] /\
   announced w2 = (clock w + 100, message) :: announced w) /\
  (clock w3 = clock w + 3000 /\
   liveRegions w3 = [] /\ timers w3 = [] /\
   announced w3 = (clock w + 100, message) :: announced w /\
   playCalls (audio w3) = playCalls (audio w)).
Proof.
  destruct w as [storage now ts id ls rs said a p u]. cbn. intros -> ->.
  assert ((now + 100 <=? now + 3000) = true) as Hle by lia.
  assert (Z.max now (now + 100) = now + 100) as Hm1 by lia.
  assert (Z.max (now + 100) (now + 3000) = now + 3000) as Hm2 by lia.
  cbv -[Z.add Z.leb Z.max Nat.eqb]. rewrite Hle.
  cbv -[Z.add Z.leb Z.max Nat.eqb]. rewrite !Nat.eqb_refl, ?Hm1.
  cbv -[Z.add Z.leb Z.max Nat.eqb]. rewrite ?Hm1, ?Hm2.
  repeat split.
Qed.

End Starting.

Lemma refused_play_is_reported_witness :
  let B := {| parseFromString := parseFromString Fixtures.plainBrowser;
              htmlTextContent := htmlTextContent Fixtures.plainBrowser;
              dateParse := dateParse Fixtures.plainBrowser;
              urlConstructs := urlConstructs Fixtures.plainBrowser;
              btoa := btoa Fixtures.plainBrowser;
              fetch := fetch Fixtures.plainBrowser;
              readyStateAt := fun _ => 4%nat;
              playRejection := fun _ => Some "play() failed: no user gesture";
              hasMediaSession := true |} in
  let w := snd (AudioPlayer.loadEpisode B (Some Fixtures.someEpisode) "Show" false
                  Fixtures.emptyWorld) in
  let w' := AudioPlayer.play B w in
  playRejection B (clock w) = Some "play() failed: no user gesture" /\
  controlsDisabled (ui w') = false /\ spinner (ui w') = false /\
  isPlaying (player w') = false /\ playCalls (audio w') = 1%nat.
Proof.
  intros B w w'. split; [reflexivity|].
  destruct (proj1 (refused_play_is_reported B w) Fixtures.someEpisode
              "play() failed: no user gesture" eq_refl eq_refl)
    as (H1 & H2 & _ & _ & H5 & H6 & _).
  repeat split; assumption.
Defined.


Lemma canplay_is_one_shot_witness :
  let B := Fixtures.plainBrowser in
  let w := snd (AudioPlayer.loadEpisode B (Some Fixtures.someEpisode) "Show" true
                  Fixtures.emptyWorld) in
  canplayListeners w = [1%nat] /\
  playCalls (audio w) = 0%nat /\
  playCalls (audio (AudioPlayer.dispatch B AudioPlayer.EvCanPlay w))
  = (playCalls (audio w) + length (canplayListeners w))%nat.
Proof.
  intros B w. split; [reflexivity|]. split; [reflexivity|].
  apply (proj1 (proj2 (proj2 (canplay_is_one_shot B w)))).
  exists Fixtures.someEpisode. reflexivity.
Defined.

Lemma announcement_lifecycle_witness :
  let B := Fixtures.plainBrowser in
  let w1 := Utils.announceToScreenReader "Paused" Fixtures.emptyWorld in
  liveRegions (Vocabulary.turns B [Vocabulary.Fire] w1) = [(0%nat, "Paused")] /\
  liveRegions (Vocabulary.turns B [Vocabulary.Fire; Vocabulary.Fire] w1) = [] /\
  clock (Vocabulary.turns B [Vocabulary.Fire; Vocabulary.Fire] w1) = 3000.
Proof.
  intros B w1.
  destruct (announcement_lifecycle B "Paused" Fixtures.emptyWorld eq_refl eq_refl)
    as (_ & (_ & H2 & _) & (H3 & H4 & _)).
  repeat split; assumption.
Defined.

(** ** Relative dates *)
Section RelativeDates.
Import Dates.
Variable B : Browser.
Variable toLocaleDateString : option Z -> string.

Lemma ceilDiv_bounds (a b : Z) :
  0 < b -> (ceilDiv a b - 1) * b < a <= ceilDiv a b * b.
Proof.
  intros Hb. unfold ceilDiv.
  pose proof (Z.div_mod (- a) b) as Hdm.
  pose proof (Z.mod_pos_bound (- a) b Hb) as Hm. nia.
Qed.

Lemma ceilDiv_unique (a b n : Z) :
  0 < b -> (n - 1) * b < a <= n * b -> ceilDiv a b = n.
Proof.
  intros Hb Hn. pose proof (ceilDiv_bounds a b Hb) as Hc. nia.
Qed.

Lemma DAY_MS_positive : 0 < DAY_MS.
Proof. reflexivity. Qed.

(** X23: the label [formatDate] gives a date depends only on how far
    the date is from now, not on whether it lies in the past or in the
    future.  Up to 24 hours away (but not now) it is "Today", up to 48
    hours "Yesterday", beyond 365 days the locale's date; a date that is
    exactly now is labelled "0 days ago"; from 8 to 30 days the label
    counts 2 to 5 weeks, and from 31 to 365 days it counts 2 to 13
    months. *)
Theorem formatDate_by_distance (now date : Z) (dateString : string) :
  dateString <> "" -> dateParse B dateString = Some date ->
  let label := formatDate B toLocaleDateString now dateString in
  let distance := Z.abs (now - date) in
  label = formatDate B toLocaleDateString (date - (now - date)) dateString /\
  (0 < distance <= DAY_MS -> label = "Today") /\
  (DAY_MS < distance <= 2 * DAY_MS -> label = "Yesterday") /\
  (distance = 0 -> label = "0 days ago") /\
  (7 * DAY_MS < distance <= 30 * DAY_MS ->
   exists n, 2 <= n <= 5 /\ label = Text.numberToString n ++ " weeks ago") /\
  (30 * DAY_MS < distance <= 365 * DAY_MS ->
   exists n, 2 <= n <= 13 /\ label = Text.numberToString n ++ " months ago") /\
  (365 * DAY_MS < distance -> label = toLocaleDateString (Some date)).
Proof.
  intros Hne Hparse label distance.
  assert (JsString.truthy dateString = true) as Ht.
  { destruct dateString; [congruence | reflexivity]. }
  pose proof DAY_MS_positive as Hday.
  pose proof (ceilDiv_bounds distance DAY_MS Hday) as Hdays.
  assert (label =
          let diffDays := ceilDiv distance DAY_MS in
          if diffDays =? 1 then "Today"
          else if diffDays =? 2 then "Yesterday"
          else if diffDays <=? 7 then Text.numberToString diffDays ++ " days ago"
          else if diffDays <=? 30
               then Text.numberToString (ceilDiv diffDays 7) ++ " weeks ago"
          else if diffDays <=? 365
               then Text.numberToString (ceilDiv diffDays 30) ++ " months ago"
          else toLocaleDateString (Some date)) as Hlabel.
  { subst label. unfold formatDate. now rewrite Ht, Hparse. }
  split.
  { subst label. unfold formatDate. rewrite Ht, Hparse. cbn [negb].
    replace (Z.abs (date - (now - date) - date)) with (Z.abs (now - date)) by lia.
    reflexivity. }
  rewrite Hlabel. clear Hlabel. cbv zeta.
  set (n := ceilDiv distance DAY_MS) in *.
  repeat split.
  - intros H. assert (n = 1) as -> by nia. reflexivity.
  - intros H. assert (n = 2) as -> by nia. reflexivity.
  - intros H. assert (n = 0) as -> by nia. reflexivity.
  - intros H. assert (7 < n <= 30) as Hn by nia.
    pose proof (ceilDiv_bounds n 7 ltac:(lia)) as Hw.
    exists (ceilDiv n 7). split; [lia|].
    destruct (Z.eqb_spec n 1); [lia|]. destruct (Z.eqb_spec n 2); [lia|].
    destruct (Z.leb_spec n 7); [lia|]. destruct (Z.leb_spec n 30); [|lia].
    reflexivity.
  - intros H. assert (30 < n <= 365) as Hn by nia.
    pose proof (ceilDiv_bounds n 30 ltac:(lia)) as Hm.
    exists (ceilDiv n 30). split; [lia|].
    destruct (Z.eqb_spec n 1); [lia|]. destruct (Z.eqb_spec n 2); [lia|].
    destruct (Z.leb_spec n 7); [lia|]. destruct (Z.leb_spec n 30); [lia|].
    destruct (Z.leb_spec n 365); [|lia]. reflexivity.
  - intros H. assert (365 < n) as Hn by nia.
    destruct (Z.eqb_spec n 1); [lia|]. destruct (Z.eqb_spec n 2); [lia|].
    destruct (Z.leb_spec n 7); [lia|]. destruct (Z.leb_spec n 30); [lia|].
    destruct (Z.leb_spec n 365); [lia|]. reflexivity.
Qed.

End RelativeDates.

Lemma formatDate_by_distance_witness :
  let B := Fixtures.plainBrowser in
  let toLocale := fun _ : option Z => "Jan 1, 2024" in
  dateParse B "2024-01-01" = Some (Fixtures.daysFromCivil 2024 1 1 * 86400000) /\
  Dates.formatDate B toLocale (Fixtures.daysFromCivil 2024 1 1 * 86400000 + Fixtures.HOUR_MS) "2024-01-01"
  = "Today".
Proof.
  intros B toLocale. split; [reflexivity|].
  apply (proj1 (proj2 (formatDate_by_distance B toLocale
                         (Fixtures.daysFromCivil 2024 1 1 * 86400000 + Fixtures.HOUR_MS)
                         (Fixtures.daysFromCivil 2024 1 1 * 86400000) "2024-01-01"
                         ltac:(discriminate) eq_refl))).
  vm_compute. split; [reflexivity | discriminate].
Defined.

(** ** After [destroy], and the play/pause button *)
Section Stopped.
Import AudioPlayer Vocabulary.
Variable B : Browser.

Lemma canplay_stopped (ls : list nat) (w : World) :
  currentEpisode (player w) = None ->
  let w' := foldl (fun w l => onCanPlay B l w) w ls in
  currentEpisode (player w') = None /\
  playCalls (audio w') = playCalls (audio w) /\
  localStorage w' = localStorage w.
Proof.
  revert w. induction ls as [|a ls IH]; intros w Hnone; cbn [foldl]; [now repeat split|].
  assert (onCanPlay B a w
          = withListeners (List.filter (fun l => negb (Nat.eqb l a))) w) as ->.
  { unfold onCanPlay, play. cbn. now rewrite Hnone. }
  apply (IH (withListeners (List.filter (fun l => negb (Nat.eqb l a))) w)). exact Hnone.
Qed.

(** With no current episode, no turn of the event loop requests
    playback, writes to the storage or makes an episode current. *)
Lemma turn_stopped (t : Turn) (w : World) :
  currentEpisode (player w) = None ->
  currentEpisode (player (turn B t w)) = None /\
  playCalls (audio (turn B t w)) = playCalls (audio w) /\
  localStorage (turn B t w) = localStorage w.
Proof.
  intros Hnone. destruct t as [|ev]; cbn [turn].
  - unfold fireNext.
    destruct (popEarliest (timers w)) as [[t rest]|]; cbn [default]; [|now repeat split].
    destruct (task t) as [|listener|region message|region]; cbn [runTask].
    + unfold tryPlay, readyState, play. cbn.
      match goal with |- context [if ?c then _ else _] => destruct c end;
        cbn; rewrite ?Hnone; cbn; now repeat split.
    + unfold loadingTimeout, readyState. cbn.
      match goal with |- context [if ?c then _ else _] => destruct c end;
        cbn; now repeat split.
    + cbn. now repeat split.
    + cbn. now repeat split.
  - destruct ev as [|d|t| |code| | | | |]; cbn [dispatch];
      try (cbn; now repeat split).
    + unfold onTimeUpdate, savePlaybackPosition. cbn.
      destruct (truthyNumber (duration (audio w))); cbn; rewrite ?Hnone;
        now repeat split.
    + apply canplay_stopped. exact Hnone.
Qed.

Lemma turns_stopped (ts : list Turn) (w : World) :
  currentEpisode (player w) = None ->
  currentEpisode (player (turns B ts w)) = None /\
  playCalls (audio (turns B ts w)) = playCalls (audio w) /\
  localStorage (turns B ts w) = localStorage w.
Proof.
  revert w. induction ts as [|t ts IH]; intros w Hnone; [now repeat split|].
  unfold turns. cbn [foldl]. fold (turns B ts (turn B t w)).
  destruct (turn_stopped t w Hnone) as (H1 & H2 & H3).
  destruct (IH _ H1) as (H1' & H2' & H3').
  repeat split; congruence.
Qed.

(** X24: [destroy] is final.  Whatever was under way (a pending poll
    or a registered [canplay] listener of an auto-play attempt
    included), no timer and no media event after it requests playback,
    writes to the storage or brings an episode back, and the transport
    controls do nothing. *)
Theorem destroy_is_final (ts : list Turn) (w : World) :
  let w' := turns B ts (destroy w) in
  currentEpisode (player w') = None /\
  playCalls (audio w') = playCalls (audio w) /\
  localStorage w' = localStorage w /\
  paused (audio (destroy w)) = true /\
  playerShown (ui (destroy w)) = false /\
  togglePlayPause B w' = w' /\ play B w' = w' /\
  (forall seconds, skipBack seconds w' = w' /\ skipForward seconds w' = w') /\
  (forall percentage, seek percentage w' = w').
Proof.
  intros w'.
  assert (currentEpisode (player (destroy w)) = None) as Hnone by reflexivity.
  destruct (turns_stopped ts (destroy w) Hnone) as (H1 & H2 & H3).
  fold w' in H1, H2, H3.
  split; [exact H1|]. split.
  { rewrite H2. unfold destroy, pause. now destruct (paused (audio w)). }
  split.
  { rewrite H3. unfold destroy, pause. now destruct (paused (audio w)). }
  split.
  { unfold destroy, pause. now destruct (paused (audio w)) eqn:E; cbn. }
  split; [reflexivity|].
  unfold togglePlayPause, play, skipBack, skipForward, seek. rewrite H1.
  now repeat split.
Qed.

(** X25: the play/pause button.  With an episode loaded and the media
    paused, a press requests playback; when the media element accepts,
    a second press pauses again, and the two presses leave nothing
    behind but the one request.  While the media plays, a press pauses
    and requests nothing. *)
Theorem toggle_twice (e : Episode.t) (w : World) :
  currentEpisode (player w) = Some e ->
  (paused (audio w) = true -> playRejection B (clock w) = None ->
   paused (audio (togglePlayPause B w)) = false /\
   playCalls (audio (togglePlayPause B w)) = S (playCalls (audio w)) /\
   togglePlayPause B (togglePlayPause B w) = audioPlayRequested w) /\
  (paused (audio w) = false ->
   paused (audio (togglePlayPause B w)) = true /\
   playCalls (audio (togglePlayPause B w)) = playCalls (audio w)).
Proof.
  intros He. split.
  - intros Hp Hok.
    assert (togglePlayPause B w = setPaused false (audioPlayRequested w)) as Hfirst.
    { unfold togglePlayPause, play. rewrite He, Hp. cbn. now rewrite Hok. }
    rewrite Hfirst. split; [reflexivity|]. split; [reflexivity|].
    unfold togglePlayPause, pause. cbn. rewrite He.
    destruct w as [storage now ts id ls rs said a p u]. destruct a. cbn in *.
    subst. reflexivity.
  - intros Hp. unfold togglePlayPause, pause. rewrite He, Hp. cbn. now split.
Qed.

End Stopped.

Lemma toggle_twice_witness :
  let B := Fixtures.plainBrowser in
  let w := snd (AudioPlayer.loadEpisode B (Some Fixtures.someEpisode) "Show" false
                  Fixtures.emptyWorld) in
  paused (audio w) = true /\
  AudioPlayer.togglePlayPause B (AudioPlayer.togglePlayPause B w)
  = AudioPlayer.audioPlayRequested w.
Proof.
  intros B w. split; [reflexivity|].
  apply (proj1 (toggle_twice B Fixtures.someEpisode w eq_refl) eq_refl eq_refl).
Defined.
